(** * ffcv-DomainBed: augmentation operators and the beton writer

    A shallow embedding of [domainbed/datasets/ffcv_transforms.py] and
    [ffcv_writers.py].

    - float64 arithmetic is IEEE-754 binary64 as given by the Standard
      Library's [SpecFloat] (round to nearest even), so decimal literals,
      products and sums evaluate to the very doubles numpy computes;
    - uint8 pixels are integers in [0, 256);
    - an RGB image is a list of rows of pixel triples, a batch a list of
      images; numpy's elementwise operators are maps over them;
    - arrays live in a store indexed by locations, so that being the same
      array is a statement about locations;
    - numpy's random generator, [np.cos], [np.sin] and FFCV's [fast_crop]
      are external: they are parameters of the development. *)

From Stdlib Require Import ZArith Floats.SpecFloat.
From stdpp Require Import base option list gmap strings.

Local Open Scope Z_scope.

(** ** IEEE-754 binary64 *)

Module F64.

Definition prec : Z := 53.
Definition emax : Z := 1024.

Definition float : Type := spec_float.

(** An integer converted to a double. *)
Definition of_Z (z : Z) : float := binary_normalize prec emax z 0 false.

Definition add : float -> float -> float := SFadd prec emax.
Definition sub : float -> float -> float := SFsub prec emax.
Definition mul : float -> float -> float := SFmul prec emax.
Definition div : float -> float -> float := SFdiv prec emax.
Definition sqrt : float -> float := SFsqrt prec emax.
Definition ltb : float -> float -> bool := SFltb.
Definition leb : float -> float -> bool := SFleb.
Definition eqb : float -> float -> bool := SFeqb.

(** The decimal literal [n / d] (for instance 0.2989 is [lit 2989 10000]):
    both integers are exact doubles and the division is correctly rounded,
    which is the double a decimal literal denotes. *)
Definition lit (n d : Z) : float := div (of_Z n) (of_Z d).

Definition zero : float := of_Z 0.
Definition one : float := of_Z 1.
Definition inf : float := S754_infinity false.

(** [np.pi], the double 0x1.921fb54442d18p+1. *)
Definition pi : float := S754_finite false 7074237752028440 (-51).

(** Truncation toward zero, the integer part of a finite double.  NaN and
    the infinities have no integer part; they are sent to 0. *)
Definition truncZ (x : float) : Z :=
  match x with
  | S754_finite s m e =>
      let a := if 0 <=? e then Z.shiftl (Zpos m) e
               else Z.shiftr (Zpos m) (- e) in
      if s then - a else a
  | _ => 0
  end.

(** [x.clip(lo, hi)]: comparisons with NaN are false, so NaN stays. *)
Definition clip (x lo hi : float) : float :=
  if ltb x lo then lo else if ltb hi x then hi else x.

(** Python's [max(a, b)]: [a] unless [b > a]. *)
Definition py_max (a b : float) : float := if ltb a b then b else a.

End F64.

Import F64.

(** The arithmetic is evaluated by [vm_compute] only, never by [simpl]. *)
Arguments of_Z : simpl never.
Arguments add : simpl never.
Arguments sub : simpl never.
Arguments mul : simpl never.
Arguments div : simpl never.
Arguments sqrt : simpl never.
Arguments ltb : simpl never.
Arguments leb : simpl never.
Arguments eqb : simpl never.
Arguments lit : simpl never.
Arguments truncZ : simpl never.
Arguments clip : simpl never.
Arguments py_max : simpl never.

(** ** uint8 *)

Definition is_uint8 (z : Z) : Prop := 0 <= z < 256.

(** [.astype(np.uint8)] of a double: the integer part, kept in 8 bits. *)
Definition astype_uint8 (x : float) : Z := truncZ x mod 256.

(** ** Arrays *)

(** The last axis of an RGB array: three channels. *)
Abbreviation pixel A := (A * A * A)%type (only parsing).

(** An array of shape (H, W, 3). *)
Abbreviation image A := (list (list (pixel A))) (only parsing).

(** An array of shape (H, W) or (H, W, 1). *)
Abbreviation plane A := (list (list A)) (only parsing).

(** An array of shape (N, H, W, 3) of uint8. *)
Abbreviation batch := (list (image Z)) (only parsing).

Section Arrays.
Context {A B C : Type}.

Definition pix_map (f : A -> B) (p : pixel A) : pixel B :=
  let '(r, g, b) := p in (f r, f g, f b).

Definition pix_map2 (f : A -> B -> C) (p : pixel A) (q : pixel B) : pixel C :=
  let '(r, g, b) := p in let '(r', g', b') := q in (f r r', f g g', f b b').

(** [p[k] = v] *)
Definition chan_set (k : nat) (v : A) (p : pixel A) : pixel A :=
  let '(r, g, b) := p in
  match k with
  | O => (v, g, b) | S O => (r, v, b) | S (S O) => (r, g, v) | _ => p
  end.

(** An elementwise operator on one array. *)
Definition arr_map (f : A -> B) (a : list (list A)) : list (list B) :=
  (fun r : list A => f <$> r) <$> a.

(** An elementwise operator on two arrays of the same shape. *)
Definition arr_map2 (f : A -> B -> C) (a : list (list A)) (b : list (list B))
  : list (list C) :=
  zip_with (zip_with f) a b.

(** [a[row, col]] *)
Definition arr_get (a : list (list A)) (row col : nat) : option A :=
  r ← a !! row; r !! col.

End Arrays.

(** [a.shape[0]] and [a.shape[1]] *)
Definition height {A} (a : list (list A)) : nat := length a.
Definition width {A} (a : list (list A)) : nat :=
  match a with [] => 0%nat | r :: _ => length r end.

(** The row lengths of an array; equal row lengths mean equal shape. *)
Definition dims {A} (a : list (list A)) : list nat := length <$> a.

Definition rectangular {A} (a : list (list A)) : Prop :=
  Forall (fun r => length r = width a) a.

Definition pixel_uint8 (p : pixel Z) : Prop :=
  let '(r, g, b) := p in is_uint8 r /\ is_uint8 g /\ is_uint8 b.

Definition image_uint8 (img : image Z) : Prop := Forall (Forall pixel_uint8) img.

Definition batch_uint8 (b : batch) : Prop := Forall image_uint8 b.

(** ** The colour arithmetic of [color_jitter] *)

(** The second operand of [blend]: a scalar, or a uint8 image. *)
Inductive blend_arg : Type :=
| Scalar (x : float)
| Array (a : image Z).

(** [def blend(img1, img2, ratio):
       return (ratio*img1 + (1-ratio)*img2).clip(0, 255).astype(img1.dtype)] *)
Definition blend (img1 : image Z) (img2 : blend_arg) (ratio : float) : image Z :=
  let t1 : image float := arr_map (pix_map (fun v => mul ratio (of_Z v))) img1 in
  let s := sub one ratio in
  let total : image float :=
    match img2 with
    | Scalar x => arr_map (pix_map (fun a => add a (mul s x))) t1
    | Array a =>
        arr_map2 (pix_map2 add) t1 (arr_map (pix_map (fun v => mul s (of_Z v))) a)
    end in
  arr_map (pix_map (fun x => astype_uint8 (clip x (of_Z 0) (of_Z 255)))) total.

(** [0.2989 * r + 0.587 * g + 0.114 * b] on one pixel.  The contrast branch
    writes the same three literals as 0.2989, 0.5870 and 0.1140. *)
Definition luma (p : pixel Z) : float :=
  let '(r, g, b) := p in
  add (add (mul (lit 2989 10000) (of_Z r)) (mul (lit 587 1000) (of_Z g)))
      (mul (lit 114 1000) (of_Z b)).

(** The unrolled loop of numpy's pairwise summation, on the eight running
    sums [r]:
    [for (i = 8; i < n - (n % 8); i += 8) {
         r[0] += a[i + 0]; ... r[7] += a[i + 7]; }] *)
Fixpoint unrolled_loop (turns i : nat) (a r : list float) : list float :=
  match turns with
  | O => r
  | S turns' =>
      unrolled_loop turns' (i + 8) a (zip_with add r (take 8 (drop i a)))
  end.

(** numpy's [pairwise_sum(a, n)] on a contiguous float64 array:
    - fewer than 8 elements are added one after the other, from 0;
    - up to 128 elements are added into eight running sums, those are added
      as [((r0 + r1) + (r2 + r3)) + ((r4 + r5) + (r6 + r7))], and the
      elements after the last full group of eight are added one by one;
    - a longer array is cut in two, the first part of length [n / 2] rounded
      down to a multiple of 8, and the two sums are added.
    [fuel] bounds the depth of the cuts; the length of the array is
    enough. *)
Fixpoint pairwise_sum (fuel : nat) (a : list float) : float :=
  let n := length a in
  if (n <? 8)%nat then foldl add zero a
  else if (n <=? 128)%nat then
    let r := unrolled_loop (n / 8 - 1) 8 a (take 8 a) in
    let at_ k := nth k r zero in
    let res := add (add (add (at_ 0%nat) (at_ 1%nat)) (add (at_ 2%nat) (at_ 3%nat)))
                   (add (add (at_ 4%nat) (at_ 5%nat)) (add (at_ 6%nat) (at_ 7%nat))) in
    foldl add res (drop (n - n mod 8) a)
  else
    match fuel with
    | O => zero
    | S fuel' =>
        let n2 := (n / 2)%nat in
        let n2 := (n2 - n2 mod 8)%nat in
        add (pairwise_sum fuel' (take n2 a)) (pairwise_sum fuel' (drop n2 a))
    end.

(** [np.add.reduce] over a whole contiguous array: the pairwise sum of its
    elements in row-major order is added to the identity 0. *)
Definition np_sum (a : plane float) : float :=
  add zero (pairwise_sum (length (concat a)) (concat a)).

(** [a.mean()] of a float64 array: the sum divided by the number of
    elements. *)
Definition np_mean (a : plane float) : float :=
  div (np_sum a) (of_Z (Z.of_nat (length (concat a)))).

(** Brightness: [images[i] = blend(images[i], 0, ratio_brightness)] *)
Definition adjust_brightness (img : image Z) (ratio : float) : image Z :=
  blend img (Scalar (of_Z 0)) ratio.

(** Contrast:
    [gray = 0.2989 * images[i,:,:,0:1] + 0.5870 * images[i,:,:,1:2]
            + 0.1140 * images[i,:,:,2:3]
     images[i] = blend(images[i], gray.mean(), ratio_contrast)] *)
Definition adjust_contrast (img : image Z) (ratio : float) : image Z :=
  let gray : plane float := arr_map luma img in
  blend img (Scalar (np_mean gray)) ratio.

(** [l_img = (0.2989 * r + 0.587 * g + 0.114 * b).astype(images[i].dtype)] *)
Definition l_img_of (img : image Z) : plane Z :=
  arr_map (fun p => astype_uint8 (luma p)) img.

(** Saturation:
    [l_img3 = np.zeros_like(images[i])
     for j in my_range(images[i].shape[-1]): l_img3[:,:,j] = l_img
     images[i] = blend(images[i], l_img3, ratio_saturation)] *)
Definition adjust_saturation (img : image Z) (ratio : float) : image Z :=
  let l_img := l_img_of img in
  let zeros : image Z := arr_map (fun _ => (0, 0, 0)) img in
  let l_img3 :=
    foldl (fun acc j => arr_map2 (fun p v => chan_set j v p) acc l_img)
          zeros (seq 0 3) in
  blend img (Array l_img3) ratio.

(** The rows of [hue_rotation_matrix], built from [cosA] and [sinA].  The
    source writes each entry out; [third] is its [1./3.], [k] its
    [(1.0 - cosA)] and [s] its [np.sqrt(1./3.) * sinA], so that
    [cosA + (1.0 - cosA) / 3.0] is [add cosA (div k 3)] and
    [1./3. * (1.0 - cosA) - np.sqrt(1./3.) * sinA] is [sub (mul third k) s]. *)
Definition hue_rotation_matrix (cosA sinA : float)
  : pixel float * pixel float * pixel float :=
  let third := div (of_Z 1) (of_Z 3) in
  let k := sub (of_Z 1) cosA in
  let s := mul (sqrt third) sinA in
  ((add cosA (div k (of_Z 3)), sub (mul third k) s, add (mul third k) s),
   (add (mul third k) s, add cosA (mul third k), sub (mul third k) s),
   (sub (mul third k) s, add (mul third k) s, add cosA (mul third k))).

(** [r * m[0] + g * m[1] + b * m[2]] for one matrix row [m]. *)
Definition dot3 (m p : pixel float) : float :=
  let '(m0, m1, m2) := m in
  let '(r, g, b) := p in
  add (add (mul r m0) (mul g m1)) (mul b m2).

(** The matrix-vector product of the rotation matrix with a pixel. *)
Definition mat_vec (m : pixel float * pixel float * pixel float)
  (p : pixel float) : pixel float :=
  let '(m0, m1, m2) := m in (dot3 m0 p, dot3 m1 p, dot3 m2 p).

(** [img[row, col, k] = v] *)
Definition arr_set_chan {A} (img : image A) (row col k : nat) (v : A) : image A :=
  alter (alter (chan_set k v) col) row img.

(** The body of the two pixel loops of the hue branch:
    [r, g, b = img[row, col, :]
     img[row, col, 0] = r * m[0, 0] + g * m[0, 1] + b * m[0, 2]
     img[row, col, 1] = r * m[1, 0] + g * m[1, 1] + b * m[1, 2]
     img[row, col, 2] = r * m[2, 0] + g * m[2, 1] + b * m[2, 2]] *)
Definition hue_pixel (m : pixel float * pixel float * pixel float)
  (img : image float) (row col : nat) : image float :=
  match arr_get img row col with
  | Some p =>
      let '(m0, m1, m2) := m in
      let img := arr_set_chan img row col 0 (dot3 m0 p) in
      let img := arr_set_chan img row col 1 (dot3 m1 p) in
      arr_set_chan img row col 2 (dot3 m2 p)
  | None => img
  end.

(** [for row in prange(img.shape[0]): for col in prange(img.shape[1]): ...] *)
Definition hue_loops (m : pixel float * pixel float * pixel float)
  (img : image float) : image float :=
  foldl (fun img row =>
           foldl (fun img col => hue_pixel m img row col) img (seq 0 (width img)))
        img (seq 0 (height img)).

(** ** ColorJitter: the constructor *)

Inductive exn : Type := ValueError | TypeError | AssertionError | KeyError.

Inductive result (A : Type) : Type :=
| Ok (a : A)
| Raise (e : exn).
Arguments Ok {A} a.
Arguments Raise {A} e.

Definition rbind {A B} (m : result A) (f : A -> result B) : result B :=
  match m with Ok a => f a | Raise e => Raise e end.

(** What a caller may pass for a jitter amount: a number, a tuple or list of
    numbers, or anything else. *)
Inductive pyval : Type :=
| PyNum (x : float)
| PySeq (xs : list float)
| PyOther.

(** [_check_input(self, value, name, center=1, bound=(0, float("inf")),
                  clip_first_on_zero=True)];
    [name] only appears in the text of the exceptions. *)
Definition _check_input (value : pyval) (center : float) (bound : float * float)
  (clip_first_on_zero : bool) : result (option (float * float)) :=
  rbind
    (match value with
     | PyNum v =>
         if ltb v (of_Z 0) then Raise ValueError
         else
           let v0 := sub center v in
           let v1 := add center v in
           Ok (if clip_first_on_zero then py_max v0 (of_Z 0) else v0, v1)
     | PySeq [v0; v1] =>
         if leb (fst bound) v0 && leb v0 v1 && leb v1 (snd bound)
         then Ok (v0, v1)
         else Raise ValueError
     | _ => Raise TypeError
     end)
    (fun '(v0, v1) =>
       if eqb v0 v1 && eqb v1 center then Ok None else Ok (Some (v0, v1))).

Record ColorJitter : Type := {
  brightness : option (float * float);
  contrast : option (float * float);
  saturation : option (float * float);
  hue : option (float * float)
}.

Definition check_unit_centred (value : pyval) : result (option (float * float)) :=
  _check_input value (of_Z 1) (of_Z 0, inf) true.

Definition check_hue (value : pyval) : result (option (float * float)) :=
  _check_input value (of_Z 0) (lit (-1) 2, lit 1 2) false.

(** [ColorJitter.__init__(self, brightness=0, contrast=0, saturation=0, hue=0)] *)
Definition ColorJitter_init (b c s h : pyval) : result ColorJitter :=
  rbind (check_unit_centred b) (fun b' =>
  rbind (check_unit_centred c) (fun c' =>
  rbind (check_unit_centred s) (fun s' =>
  rbind (check_hue h) (fun h' =>
  Ok {| brightness := b'; contrast := c'; saturation := s'; hue := h' |})))).

(** ** External libraries *)

(** numpy's generator (its state [rng] and the draws the kernels make from
    it) and the two trigonometric functions of the hue branch. *)
Class Numpy (rng : Type) : Type := {
  np_random_permutation : nat -> rng -> list nat * rng;
  np_random_uniform : float -> float -> rng -> float * rng;
  np_random_random : rng -> float * rng;
  np_cos : float -> float;
  np_sin : float -> float
}.

(** [ffcv.transforms.utils.fast_crop]: [get_center_crop(height, width, ratio)]
    returns [(i, j, h, w)]; [resize_crop(source, start_row, end_row,
    start_col, end_col, destination)] writes into [destination], here the
    new contents of the destination as a function of the old. *)
Class FastCrop : Type := {
  get_center_crop : Z -> Z -> float -> Z * Z * Z * Z;
  resize_crop : image Z -> Z -> Z -> Z -> Z -> image Z -> image Z
}.

(** ** Kernels over a store of arrays *)

Abbreviation loc := nat (only parsing).

Section Kernels.

Context {rng : Type} {HNumpy : Numpy rng} {HFastCrop : FastCrop}.

(** A computation over a store of arrays of type [T] and the generator;
    [None] is an index outside an array. *)
Definition K (T A : Type) : Type :=
  gmap loc T * rng -> option (A * (gmap loc T * rng)).

Definition kret {T A} (a : A) : K T A := fun w => Some (a, w).

Definition kbind {T A B} (m : K T A) (f : A -> K T B) : K T B :=
  fun w => match m w with Some (a, w') => f a w' | None => None end.

Notation "x <- m ;; k" := (kbind m (fun x => k))
  (at level 100, m at next level, right associativity).
Notation "m ;;; k" := (kbind m (fun _ => k))
  (at level 100, right associativity).

(** A draw from the generator. *)
Definition draw {T A} (f : rng -> A * rng) : K T A :=
  fun '(h, g) => let '(a, g') := f g in Some (a, (h, g')).

(** [for x in xs: body(x)] *)
Fixpoint for_each {T X} (xs : list X) (body : X -> K T unit) : K T unit :=
  match xs with
  | [] => kret tt
  | x :: xs' => body x ;;; for_each xs' body
  end.

(** [images.shape[0]] *)
Definition shape0 (images : loc) : K batch nat :=
  fun '(h, g) => b ← h !! images; Some (length b, (h, g)).

(** [images[i]] *)
Definition load_image (images : loc) (i : nat) : K batch (image Z) :=
  fun '(h, g) => b ← h !! images; img ← b !! i; Some (img, (h, g)).

(** [images[i] = img] *)
Definition store_image (images : loc) (i : nat) (img : image Z) : K batch unit :=
  fun '(h, g) =>
    b ← h !! images;
    if decide (i < length b)%nat
    then Some (tt, (<[images := <[i := img]> b]> h, g))
    else None.

(** [np.random.rand(n)]: [n] draws, one after the other. *)
Fixpoint np_random_rand (n : nat) (g : rng) : list float * rng :=
  match n with
  | O => ([], g)
  | S n' =>
      let '(u, g1) := np_random_random g in
      let '(us, g2) := np_random_rand n' g1 in
      (u :: us, g2)
  end.

(** The hue branch on one image:
    [img = images[i] / 255.0] ... [np.asarray(np.clip(img * 255., 0, 255),
    dtype=np.uint8)] *)
Definition adjust_hue (img_u8 : image Z) (hue_factor : float) : image Z :=
  let img : image float :=
    arr_map (pix_map (fun v => div (of_Z v) (of_Z 255))) img_u8 in
  let hue_factor_radians := mul (mul hue_factor (of_Z 2)) pi in
  let cosA := np_cos hue_factor_radians in
  let sinA := np_sin hue_factor_radians in
  let img := hue_loops (hue_rotation_matrix cosA sinA) img in
  arr_map
    (pix_map (fun x => astype_uint8 (clip (mul x (of_Z 255)) (of_Z 0) (of_Z 255))))
    img.

(** One turn of the loop over [fn_idx], for the entry [fn = fn_idx[fn_id]]:
    the [if] / [elif] chain. *)
Definition jitter_branch (cfg : ColorJitter) (images : loc) (i fn : nat)
  : K batch unit :=
  match (fn =? 0)%nat, brightness cfg with
  | true, Some (brightness_min, brightness_max) =>
      ratio_brightness <- draw (np_random_uniform brightness_min brightness_max) ;;
      img <- load_image images i ;;
      store_image images i (adjust_brightness img ratio_brightness)
  | _, _ =>
  match (fn =? 1)%nat, contrast cfg with
  | true, Some (contrast_min, contrast_max) =>
      ratio_contrast <- draw (np_random_uniform contrast_min contrast_max) ;;
      img <- load_image images i ;;
      store_image images i (adjust_contrast img ratio_contrast)
  | _, _ =>
  match (fn =? 2)%nat, saturation cfg with
  | true, Some (saturation_min, saturation_max) =>
      ratio_saturation <- draw (np_random_uniform saturation_min saturation_max) ;;
      img <- load_image images i ;;
      store_image images i (adjust_saturation img ratio_saturation)
  | _, _ =>
  match (fn =? 3)%nat, hue cfg with
  | true, Some (hue_min, hue_max) =>
      img <- load_image images i ;;
      hue_factor <- draw (np_random_uniform hue_min hue_max) ;;
      store_image images i (adjust_hue img hue_factor)
  | _, _ => kret tt
  end end end end.

(** [def color_jitter(images, *_)]:
    [for i in my_range(images.shape[0]):
         fn_idx = np.random.permutation(4)
         for fn_id in nb.prange(len(fn_idx)): ...
     return images]
    The turns of the outer loop touch distinct images; they are run in
    order, and so are the draws from the generator. *)
Definition color_jitter (cfg : ColorJitter) (images : loc) : K batch loc :=
  n <- shape0 images ;;
  for_each (seq 0 n) (fun i =>
    fn_idx <- draw (np_random_permutation 4) ;;
    for_each (seq 0 (length fn_idx)) (fun fn_id =>
      match fn_idx !! fn_id with
      | Some fn => jitter_branch cfg images i fn
      | None => fun _ => None
      end)) ;;;
  kret images.

(** [np.expand_dims(l_img, axis=-1)] broadcast to (H, W, 3). *)
Definition broadcast_last (l_img : plane Z) : image Z :=
  arr_map (fun v => (v, v, v)) l_img.

(** The grayscale image assigned to [images[i]]. *)
Definition to_grayscale (img : image Z) : image Z :=
  broadcast_last (l_img_of img).

(** [def rgb_to_grayscale(images, *_)]:
    [apply_grayscale = np.random.rand(images.shape[0]) < p
     for i in my_range(images.shape[0]):
         if apply_grayscale[i]: ...
     return images] *)
Definition rgb_to_grayscale (p : float) (images : loc) : K batch loc :=
  n <- shape0 images ;;
  us <- draw (np_random_rand n) ;;
  let apply_grayscale := (fun u => ltb u p) <$> us in
  for_each (seq 0 n) (fun i =>
    match apply_grayscale !! i with
    | Some true =>
        img <- load_image images i ;;
        store_image images i (to_grayscale img)
    | Some false => kret tt
    | None => fun _ => None
    end) ;;;
  kret images.

(** The call [fast_crop.resize_crop(im, r0, r1, c0, c1, dst)] on the store. *)
Definition call_resize_crop (im : loc) (r0 r1 c0 c1 : Z) (dst : loc)
  : K (image Z) unit :=
  fun '(h, g) =>
    a ← h !! im;
    d ← h !! dst;
    Some (tt, (<[dst := resize_crop a r0 r1 c0 c1 d]> h, g)).

(** [def resized_crop(im, dst)]:
    [i, j, h, w = fast_crop.get_center_crop(im.shape[0], im.shape[1], ratio)
     fast_crop.resize_crop(im, i, i + h, j, j + w, dst)
     return dst] *)
Definition resized_crop (ratio : float) (im dst : loc) : K (image Z) loc :=
  a <- (fun '(h, g) => a ← h !! im; Some (a, (h, g))) ;;
  let '(i, j, h, w) :=
    get_center_crop (Z.of_nat (height a)) (Z.of_nat (width a)) ratio in
  call_resize_crop im i (i + h) j (j + w) dst ;;;
  kret dst.

End Kernels.

Arguments K rng T A : clear implicits.

(** ** The operator interface of the host pipeline *)

Inductive np_dtype : Type := uint8 | int64 | float16 | float32 | float64.

Inductive torch_dtype : Type :=
| torch_uint8 | torch_int64 | torch_float16 | torch_float32 | torch_float64.

(** What the [dtype] field of a state holds: a numpy dtype on the stages
    before [ToTensor], a torch dtype after it. *)
Inductive dtype_value : Type :=
| NumpyDtype (d : np_dtype)
| TorchDtype (d : torch_dtype).

Coercion NumpyDtype : np_dtype >-> dtype_value.

(** [torch.device]: its [type] ('cpu', 'cuda', ...) and its index. *)
Record Device : Type := {
  device_type : string;
  device_index : option Z
}.

(** The pipeline state handed from one stage to the next, the host's
    dataclass [State].  The operators read and replace [jit_mode], [shape]
    and [dtype]; its [__post_init__] also reads [device]; [rest] stands for
    whatever else a state carries, which nothing here names. *)
Record State (R : Type) : Type := mkState {
  jit_mode : bool;
  device : Device;
  shape : list Z;
  dtype : dtype_value;
  rest : R
}.
Arguments mkState {R}.
Arguments jit_mode {R}.
Arguments device {R}.
Arguments shape {R}.
Arguments dtype {R}.
Arguments rest {R}.

(** [State.__post_init__]:
    [if self.jit_mode and self.device.type != 'cpu': raise AssertionError(...)
     if self.jit_mode and isinstance(self.dtype, ch.dtype):
         raise AssertionError(...)] *)
Definition State_post_init {R} (s : State R) : result unit :=
  if jit_mode s && negb (String.eqb (device_type (device s)) "cpu")
  then Raise AssertionError
  else if jit_mode s && match dtype s with TorchDtype _ => true | _ => false end
  then Raise AssertionError
  else Ok tt.

(** [dataclasses.replace(s, jit_mode=v)] and [replace(s, shape=v)]: a new
    [State] is constructed from the fields, so its [__post_init__] runs. *)
Definition replace_jit_mode {R} (s : State R) (v : bool) : result (State R) :=
  let s' := mkState v (device s) (shape s) (dtype s) (rest s) in
  rbind (State_post_init s') (fun _ => Ok s').

Definition replace_shape {R} (s : State R) (v : list Z) : result (State R) :=
  let s' := mkState (jit_mode s) (device s) v (dtype s) (rest s) in
  rbind (State_post_init s') (fun _ => Ok s').

Record AllocationQuery : Type := {
  aq_shape : list Z;
  aq_dtype : dtype_value
}.

(** What [generate_code] returns: a function of a batch, [f(images, *_)], or
    of one sample and its destination, [f(im, dst)]. *)
Inductive code (rng : Type) : Type :=
| BatchKernel (f : loc -> K rng batch loc)
| SampleKernel (f : loc -> loc -> K rng (image Z) loc).
Arguments BatchKernel {rng}.
Arguments SampleKernel {rng}.

(** A Python function object with its [is_parallel] attribute, [None] when
    the attribute was never set. *)
Record callable (rng : Type) : Type := {
  body : code rng;
  is_parallel : option bool
}.
Arguments body {rng}.
Arguments is_parallel {rng}.

(** [ffcv.pipeline.operation.Operation] *)
Class Operation (rng R Op : Type) : Type := {
  generate_code : Op -> callable rng;
  declare_state_and_memory :
    Op -> State R -> result (State R * option AllocationQuery)
}.

Module RandomGrayscale.
Record t : Type := mk { p : float }.
(** [__init__(self, p=0.1)] *)
Definition default : t := mk (lit 1 10).
End RandomGrayscale.

Module ResizedCrop.
Record t : Type := mk { ratio : float; size : Z }.
(** [__init__(self, size, ratio=1.0)] *)
Definition init (size : Z) : t := mk (of_Z 1) size.
End ResizedCrop.

Section Operators.

Context {rng : Type} {HNumpy : Numpy rng} {HFastCrop : FastCrop} {R : Type}.

#[export] Instance ColorJitter_Operation : Operation rng R ColorJitter := {
  generate_code self :=
    {| body := BatchKernel (color_jitter self); is_parallel := Some true |};
  declare_state_and_memory self previous_state :=
    rbind (replace_jit_mode previous_state true) (fun new_state =>
    Ok (new_state,
        Some {| aq_shape := shape previous_state;
                aq_dtype := dtype previous_state |}))
}.

#[export] Instance RandomGrayscale_Operation
  : Operation rng R RandomGrayscale.t := {
  generate_code self :=
    {| body := BatchKernel (rgb_to_grayscale (RandomGrayscale.p self));
       is_parallel := Some true |};
  declare_state_and_memory self previous_state :=
    rbind (replace_jit_mode previous_state true) (fun new_state =>
    Ok (new_state,
        Some {| aq_shape := shape previous_state;
                aq_dtype := dtype previous_state |}))
}.

#[export] Instance ResizedCrop_Operation : Operation rng R ResizedCrop.t := {
  generate_code self :=
    {| body := SampleKernel (resized_crop (ResizedCrop.ratio self));
       is_parallel := None |};
  declare_state_and_memory self previous_state :=
    if jit_mode previous_state then
      let size := ResizedCrop.size self in
      rbind (replace_shape previous_state [size; size; 3]) (fun new_state =>
      Ok (new_state,
          Some {| aq_shape := [size; size; 3]; aq_dtype := uint8 |}))
    else Raise AssertionError
}.

End Operators.

(** ** The beton writer script *)

Inductive Field : Type := RGBImageField | IntField.

(** A path as its components: [Path(a) / b] is [[a; b]]. *)
Definition Path : Type := list string.

Record DatasetWriter : Type := {
  fname : Path;
  fields : list (string * Field)
}.

(** One environment's indexed dataset; [X] is the type of its samples. *)
Record EnvDataset (X : Type) : Type := {
  root : string;
  samples : list X
}.
Arguments root {X}.
Arguments samples {X}.

(** A multi-environment dataset of [domainbed.datasets]. *)
Record MultipleDomainDataset (X : Type) : Type := {
  environments : list string;
  datasets : list (EnvDataset X)
}.
Arguments environments {X}.
Arguments datasets {X}.

(** The parsed command line: [--dataset] and [--data_dir]. *)
Module Args.
Record t : Type := mk { dataset : string; data_dir : string }.
End Args.

Inductive event (X : Type) : Type :=
| Print (s : string)
| NewDatasetWriter (w : DatasetWriter)
| FromIndexedDataset (w : DatasetWriter) (ds : EnvDataset X).
Arguments Print {X}.
Arguments NewDatasetWriter {X}.
Arguments FromIndexedDataset {X}.

Section Writer.

Context {X : Type}.

(** [vars(datasets)]: the dataset classes of [domainbed.datasets] by name,
    each a constructor taking the data directory. *)
Variable registry : gmap string (string -> MultipleDomainDataset X).

(** The body of the loop of [write] for one [(env, ds)]. *)
Definition write_env (env : string) (ds : EnvDataset X) : list (event X) :=
  let writer :=
    {| fname := [root ds; env +:+ ".beton"];
       fields := [("image", RGBImageField); ("label", IntField)] |} in
  [Print ("Writting " +:+ env +:+ " beton file");
   NewDatasetWriter writer;
   FromIndexedDataset writer ds].

(** [def write(args)]: the effects in order; an unknown dataset name is
    the [KeyError] of the dictionary lookup, before any effect. *)
Definition write (args : Args.t) : result (list (event X)) :=
  match registry !! Args.dataset args with
  | None => Raise KeyError
  | Some ctor =>
      let dataset := ctor (Args.data_dir args) in
      Ok (Print ("Writting beton files for " +:+ Args.dataset args +:+ " dataset")
          :: concat (zip_with write_env (environments dataset) (datasets dataset)))
  end.

End Writer.

(** The writer of one environment: the file [{env}.beton] under the root of
    the environment's dataset, with the fields [image] and [label]. *)
Definition beton_writer {X} (env : string) (ds : EnvDataset X) : DatasetWriter :=
  {| fname := [root ds; env +:+ ".beton"];
     fields := [("image", RGBImageField); ("label", IntField)] |}.

(** The writers constructed, and the datasets serialized, along a trace. *)
Definition writers_of {X} (tr : list (event X)) : list DatasetWriter :=
  omap (fun e => match e with NewDatasetWriter w => Some w | _ => None end) tr.

Definition serialized_of {X} (tr : list (event X))
  : list (DatasetWriter * EnvDataset X) :=
  omap (fun e => match e with FromIndexedDataset w ds => Some (w, ds) | _ => None end)
       tr.

(** ** The transformations as the specification words them *)

(** [clip(ratio*v + (1-ratio)*other, 0, 255)] cast back to uint8, on one
    channel value [v]. *)
Definition blend_px (ratio other : float) (v : Z) : Z :=
  astype_uint8
    (clip (add (mul ratio (of_Z v)) (mul (sub one ratio) other))
          (of_Z 0) (of_Z 255)).

(** The blend of an image with [other], given per pixel and channel. *)
Definition blend_spec (ratio : float) (other : pixel Z -> pixel float)
  (img : image Z) : image Z :=
  arr_map (fun px => pix_map2 (fun v o => blend_px ratio o v) px (other px)) img.

(** The grayscale value [0.2989*R + 0.5870*G + 0.1140*B] of a pixel. *)
Definition gray_value (px : pixel Z) : float :=
  let '(red, green, blue) := px in
  add (add (mul (lit 2989 10000) (of_Z red)) (mul (lit 5870 10000) (of_Z green)))
      (mul (lit 1140 10000) (of_Z blue)).

(** The values of [a] whose index is [k] modulo 8, among the full groups of
    eight. *)
Definition lane (k : nat) (a : list float) : list float :=
  (fun j => nth (8 * j + k) a zero) <$> seq 0 (length a / 8).

(** The sum of a list that starts from its first value. *)
Definition running_sum (xs : list float) : float :=
  match xs with
  | [] => zero
  | x :: xs' => foldl add x xs'
  end.

(** The float64 sum of 8 to 128 values in the order of numpy's pairwise
    summation: the eight lanes are summed, the eight sums are added in
    pairs, and the values after the last full group are added one by one. *)
Definition block_sum (a : list float) : float :=
  let r k := running_sum (lane k a) in
  foldl add
    (add (add (add (r 0%nat) (r 1%nat)) (add (r 2%nat) (r 3%nat)))
         (add (add (r 4%nat) (r 5%nat)) (add (r 6%nat) (r 7%nat))))
    (drop (8 * (length a / 8)) a).

(** The float64 sum of any number of values in that order: short lists one
    by one from 0, blocks as above, longer lists as the sum of the sums of
    their two parts, the first of [8 * (n / 16)] values. *)
Fixpoint sum_value (fuel : nat) (a : list float) : float :=
  if (length a <? 8)%nat then foldl add zero a
  else if (length a <=? 128)%nat then block_sum a
  else
    match fuel with
    | O => zero
    | S fuel' =>
        let h := (8 * (length a / 16))%nat in
        add (sum_value fuel' (take h a)) (sum_value fuel' (drop h a))
    end.

(** The mean of a list of doubles: their sum, divided by their number. *)
Definition mean_value (xs : list float) : float :=
  div (add zero (sum_value (length xs) xs)) (of_Z (Z.of_nat (length xs))).

(** The three choices of [other]. *)
Definition other_brightness : pixel Z -> pixel float :=
  fun _ => (of_Z 0, of_Z 0, of_Z 0).

(** The mean of the grayscale image, the pixels taken row by row. *)
Definition other_contrast (img : image Z) : pixel Z -> pixel float :=
  fun _ => let m := mean_value (gray_value <$> concat img) in (m, m, m).

(** The per-pixel grayscale value as the specification reads: the double. *)
Definition other_saturation_float : pixel Z -> pixel float :=
  fun px => let l := gray_value px in (l, l, l).

(** The per-pixel grayscale value after its cast to uint8. *)
Definition other_saturation : pixel Z -> pixel float :=
  fun px => let l := of_Z (astype_uint8 (gray_value px)) in (l, l, l).

(** Hue: scale to [0, 1], rotate, scale by 255, clip, store as uint8.  The
    matrix is the rotation about the gray axis by the angle
    [hue_factor * 2 * pi], with cosine [c] and sine [s]: [c + (1 - c) / 3]
    on the diagonal and [(1 - c) / 3 -+ sqrt(1/3) * s] off it, entry by
    entry as the kernel writes them. *)
Definition hue_spec {rng : Type} {HNumpy : Numpy rng} (hue_factor : float)
  (img : image Z) : image Z :=
  let angle := mul (mul hue_factor (of_Z 2)) pi in
  let c := np_cos angle in
  let s := np_sin angle in
  let third := div (of_Z 1) (of_Z 3) in
  let m00 := add c (div (sub (of_Z 1) c) (of_Z 3)) in
  let m01 := sub (mul third (sub (of_Z 1) c)) (mul (sqrt third) s) in
  let m02 := add (mul third (sub (of_Z 1) c)) (mul (sqrt third) s) in
  let m10 := add (mul third (sub (of_Z 1) c)) (mul (sqrt third) s) in
  let m11 := add c (mul third (sub (of_Z 1) c)) in
  let m12 := sub (mul third (sub (of_Z 1) c)) (mul (sqrt third) s) in
  let m20 := sub (mul third (sub (of_Z 1) c)) (mul (sqrt third) s) in
  let m21 := add (mul third (sub (of_Z 1) c)) (mul (sqrt third) s) in
  let m22 := add c (mul third (sub (of_Z 1) c)) in
  let stored x := astype_uint8 (clip (mul x (of_Z 255)) (of_Z 0) (of_Z 255)) in
  arr_map
    (fun '(red, green, blue) =>
       let r := div (of_Z red) (of_Z 255) in
       let g := div (of_Z green) (of_Z 255) in
       let b := div (of_Z blue) (of_Z 255) in
       (stored (add (add (mul r m00) (mul g m01)) (mul b m02)),
        stored (add (add (mul r m10) (mul g m11)) (mul b m12)),
        stored (add (add (mul r m20) (mul g m21)) (mul b m22))))
    img.

(** Grayscale: the three channels replaced by the grayscale value cast to
    uint8. *)
Definition grayscale_spec (img : image Z) : image Z :=
  arr_map (fun px => let l := astype_uint8 (gray_value px) in (l, l, l)) img.

(** A state that may be put in jit mode: on the cpu, with a numpy dtype. *)
Definition jit_ready {R} (s : State R) : Prop :=
  device_type (device s) = "cpu" /\ exists d, dtype s = NumpyDtype d.

(** The batch after [rgb_to_grayscale], given the draws [us] of
    [np.random.rand]: image [i] is converted exactly when [us[i] < p]. *)
Definition grayscale_batch (p : float) (us : list float) (b : batch) : batch :=
  zip_with (fun u img => if ltb u p then grayscale_spec img else img) us b.

(** Two batches of the same shape: as many images, with the same rows. *)
Definition same_shape (b b' : batch) : Prop := dims <$> b' = dims <$> b.

(** What the loop of [rgb_to_grayscale] does to image [i]. *)
Definition gray_turn (apply_grayscale : list bool) (i : nat) (img : image Z)
  : image Z :=
  match apply_grayscale !! i with
  | Some true => to_grayscale img
  | _ => img
  end.

(** A transformation of one image that keeps the shape and yields uint8. *)
Definition keeps_image (F : image Z -> image Z) : Prop :=
  forall img, image_uint8 (F img) /\ dims (F img) = dims img.

(** The invariant of the batch kernels, relative to the batch [b0] they
    were called on. *)
Definition batch_inv (b0 b : batch) : Prop := same_shape b0 b /\ batch_uint8 b.

(** ** A fixed instance of the external libraries, for the examples *)

(** The generator state counts the draws; a permutation is the identity,
    a uniform draw is the low end of its range, and a sample of [0, 1) is
    0.05.  [np_cos] and [np_sin] are those of the angle 0. *)
Definition example_numpy : Numpy nat := {|
  np_random_permutation n g := (seq 0 n, S g);
  np_random_uniform lo hi g := (lo, S g);
  np_random_random g := (lit 1 20, S g);
  np_cos _ := of_Z 1;
  np_sin _ := of_Z 0
|}.

(** The centre crop of FFCV, and a resize that fills the destination with
    the first pixel of the window. *)
Definition example_fast_crop : FastCrop := {|
  get_center_crop height width ratio :=
    let s := Z.min height width in
    let c := truncZ (mul ratio (of_Z s)) in
    ((height - c) `div` 2, (width - c) `div` 2, c, c);
  resize_crop source r0 r1 c0 c1 destination :=
    match arr_get source (Z.to_nat r0) (Z.to_nat c0) with
    | Some px => arr_map (fun _ => px) destination
    | None => destination
    end
|}.

(** [ColorJitter(0.75, 0.75, 0.75, 0.1)] *)
Definition example_cfg : ColorJitter := {|
  brightness := Some (lit 1 4, lit 7 4);
  contrast := Some (lit 1 4, lit 7 4);
  saturation := Some (lit 1 4, lit 7 4);
  hue := Some (sub (of_Z 0) (lit 1 10), add (of_Z 0) (lit 1 10))
|}.

(** A batch of one image of one pixel, stored at location 0. *)
Definition example_image : image Z := [[(0, 3, 2)]].
Definition example_batch : batch := [example_image].
Definition example_store : gmap nat batch := {[ 0%nat := example_batch ]}.

(** A source image at location 0 and a 1 x 1 destination at location 1. *)
Definition example_images : gmap nat (image Z) :=
  {[ 0%nat := [[(10, 20, 30); (40, 50, 60)]]; 1%nat := [[(0, 0, 0)]] ]}.

(** The cpu and the first gpu. *)
Definition example_cpu : Device :=
  {| device_type := "cpu"; device_index := None |}.
Definition example_cuda : Device :=
  {| device_type := "cuda"; device_index := Some 0 |}.

(** A state on the cpu that is not in jit mode. *)
Definition example_state : State unit :=
  mkState false example_cpu [32; 32; 3] uint8 tt.

(** The same state in jit mode, the state on the gpu, and the state after
    a conversion to torch tensors. *)
Definition example_jit_state : State unit :=
  mkState true example_cpu [32; 32; 3] uint8 tt.
Definition example_cuda_state : State unit :=
  mkState false example_cuda [32; 32; 3] uint8 tt.
Definition example_torch_state : State unit :=
  mkState false example_cpu [32; 32; 3] (TorchDtype torch_uint8) tt.

(** A generator whose uniform draws are the low end of the range, with
    [np_cos] and [np_sin] those of the quarter turn:
    [np.cos(np.pi / 2) = 6.123233995736766e-17] and [np.sin(np.pi / 2) = 1.0]. *)
Definition quarter_turn_numpy : Numpy nat := {|
  np_random_permutation n g := (seq 0 n, S g);
  np_random_uniform lo hi g := (lo, S g);
  np_random_random g := (lit 1 20, S g);
  np_cos _ := S754_finite false 4967757600021511 (-106);
  np_sin _ := of_Z 1
|}.

(** [ColorJitter(hue=(0.25, 0.5))]: the low end of the hue range is a
    quarter turn. *)
Definition quarter_turn_cfg : ColorJitter :=
  {| brightness := None; contrast := None; saturation := None;
     hue := Some (lit 1 4, lit 1 2) |}.

(** A red, a green and a gray pixel. *)
Definition example_colours : image Z := [[(255, 0, 0); (0, 255, 0); (90, 90, 90)]].
Definition example_colour_store : gmap nat batch := {[ 0%nat := [example_colours] ]}.

(** A generator whose samples of [0, 1) are 0.05 and 0.95 in turn. *)
Definition alternating_numpy : Numpy nat := {|
  np_random_permutation n g := (seq 0 n, S g);
  np_random_uniform lo hi g := (lo, S g);
  np_random_random g := (if Nat.even g then lit 1 20 else lit 19 20, S g);
  np_cos _ := of_Z 1;
  np_sin _ := of_Z 0
|}.

(** A batch of two images. *)
Definition example_pair : batch := [example_image; example_colours].
Definition example_pair_store : gmap nat batch := {[ 0%nat := example_pair ]}.

(** One row of nine pixels, and the store that holds it. *)
Definition example_row : image Z :=
  [[(29, 26, 234); (217, 183, 5); (33, 204, 129); (22, 140, 217);
    (89, 154, 115); (172, 152, 230); (137, 197, 255); (79, 180, 16);
    (112, 23, 88)]].
Definition example_row_store : gmap nat batch := {[ 0%nat := [example_row] ]}.

(** A registry with one dataset of two environments. *)
Definition example_dataset (data_dir : string) : MultipleDomainDataset nat := {|
  environments := ["A"; "C"];
  datasets := [ {| root := data_dir +:+ "/PACS/A"; samples := [] |};
                {| root := data_dir +:+ "/PACS/C"; samples := [] |} ]
|}.

Definition example_registry : gmap string (string -> MultipleDomainDataset nat) :=
  {[ "PACS" := example_dataset ]}.

Definition example_args : Args.t := Args.mk "PACS" "/data".

(** ** The kernel of [ColorJitter] as a function *)

Section PureKernel.

Context {rng : Type} {HNumpy : Numpy rng}.

(** One turn of the [if] / [elif] chain, as a function of the image and of
    the generator. *)
Definition apply_branch (cfg : ColorJitter) (fn : nat) (img : image Z) (g : rng)
  : image Z * rng :=
  match (fn =? 0)%nat, brightness cfg with
  | true, Some (lo, hi) =>
      let '(ratio, g') := np_random_uniform lo hi g in
      (adjust_brightness img ratio, g')
  | _, _ =>
  match (fn =? 1)%nat, contrast cfg with
  | true, Some (lo, hi) =>
      let '(ratio, g') := np_random_uniform lo hi g in
      (adjust_contrast img ratio, g')
  | _, _ =>
  match (fn =? 2)%nat, saturation cfg with
  | true, Some (lo, hi) =>
      let '(ratio, g') := np_random_uniform lo hi g in
      (adjust_saturation img ratio, g')
  | _, _ =>
  match (fn =? 3)%nat, hue cfg with
  | true, Some (lo, hi) =>
      let '(hue_factor, g') := np_random_uniform lo hi g in
      (adjust_hue img hue_factor, g')
  | _, _ => (img, g)
  end end end end.

(** One image: the permutation is drawn, then its entries are taken in
    order. *)
Definition jitter_image (cfg : ColorJitter) (img : image Z) (g : rng)
  : image Z * rng :=
  let '(fn_idx, g1) := np_random_permutation 4 g in
  foldl (fun st fn => apply_branch cfg fn st.1 st.2) (img, g1) fn_idx.

(** The batch, image after image, the generator threaded through. *)
Fixpoint jitter_batch (cfg : ColorJitter) (b : batch) (g : rng) : batch * rng :=
  match b with
  | [] => ([], g)
  | img :: b' =>
      let '(img', g1) := jitter_image cfg img g in
      let '(b'', g2) := jitter_batch cfg b' g1 in
      (img' :: b'', g2)
  end.

End PureKernel.

(** ** Doubles and uint8 values, for the facts about single factors *)

(** Two doubles with the same representation. *)
Definition float_same (x y : float) : bool :=
  match x, y with
  | S754_zero s, S754_zero s' => Bool.eqb s s'
  | S754_infinity s, S754_infinity s' => Bool.eqb s s'
  | S754_nan, S754_nan => true
  | S754_finite s m e, S754_finite s' m' e' =>
      Bool.eqb s s' && Pos.eqb m m' && Z.eqb e e'
  | _, _ => false
  end.

(** A double that is neither NaN nor infinite. *)
Definition is_finite (x : float) : bool :=
  match x with
  | S754_zero _ | S754_finite _ _ _ => true
  | _ => false
  end.

(** The image after two grayscale conversions, from the gray value of the
    first. *)
Definition grayscale_twice_spec (img : image Z) : image Z :=
  arr_map (fun px => let l := Z.max (astype_uint8 (luma px) - 1) 0 in (l, l, l))
          img.

(** ** Pipelines of the three operators *)


Section Pipeline.

Context {rng : Type} {HNumpy : Numpy rng} {HFastCrop : FastCrop} {R : Type}.



End Pipeline.



(** ** Further example inputs *)

(** [ColorJitter()] *)
Definition example_disabled : ColorJitter :=
  {| brightness := None; contrast := None; saturation := None; hue := None |}.

(** A store whose batch at location 0 has no image. *)
Definition example_empty_store : gmap nat batch := {[ 0%nat := [] ]}.

(** A dataset that names two environments and holds one dataset. *)
Definition example_short_dataset (data_dir : string)
  : MultipleDomainDataset nat := {|
  environments := ["A"; "C"];
  datasets := [ {| root := data_dir +:+ "/PACS/A"; samples := [] |} ]
|}.

Definition example_short_registry
  : gmap string (string -> MultipleDomainDataset nat) :=
  {[ "PACS" := example_short_dataset ]}.

(** * Facts *)

(** ** Worked values *)

(** The literal 0.2989 is the double 0x1.3212d77318fc5p-2. *)
Example literal_0_2989 :
  lit 2989 10000 = S754_finite false 5384503714484165 (-54).
Proof. vm_compute. reflexivity. Qed.

(** [np.pi] is the double that the literal 3.141592653589793 denotes. *)
Example literal_pi : pi = lit 3141592653589793 1000000000000000.
Proof. vm_compute. reflexivity. Qed.

(** The luma of the pixel (0, 3, 2) is the double nearest to 1.989. *)
Example luma_example : luma (0, 3, 2) = S754_finite false 8957659658839916 (-52).
Proof. vm_compute. reflexivity. Qed.

Example adjust_brightness_example :
  adjust_brightness [[(0, 3, 200)]] (lit 3 2) = [[(0, 4, 255)]].
Proof. vm_compute. reflexivity. Qed.

(** Saturation at ratio 0.25: the gray value 1.989 is first cast to 1, so
    the pixel becomes 0.25 * (0, 3, 2) + 0.75 * (1, 1, 1), cast to uint8. *)
Example adjust_saturation_example :
  adjust_saturation example_image (lit 1 4) = [[(0, 1, 1)]].
Proof. vm_compute. reflexivity. Qed.

(** The same blend with the gray value kept as a double:
    0.25 * (0, 3, 2) + 0.75 * 1.989, cast to uint8. *)
Example blend_float_gray_example :
  blend_spec (lit 1 4) other_saturation_float example_image = [[(1, 2, 1)]].
Proof. vm_compute. reflexivity. Qed.

(** The mean of the contrast branch is numpy's: on the row of nine pixels
    the pairwise sum gives the mean 128.0, while the nine gray values added
    one after the other give the double just below it; at ratio 0 the
    image becomes 128 everywhere, not 127. *)
Example adjust_contrast_example :
  np_mean (arr_map luma example_row) = of_Z 128
  /\ div (foldl add zero (concat (arr_map luma example_row))) (of_Z 9)
     = S754_finite false 9007199254740990 (-46)
  /\ adjust_contrast example_row (of_Z 0) = arr_map (fun _ => (128, 128, 128)) example_row.
Proof. split_and!; vm_compute; reflexivity. Qed.

(** The rotation matrix of the quarter turn.  The first diagonal entry,
    written [cosA + (1.0 - cosA) / 3.0], is one unit in the last place
    above the two others, written [cosA + 1./3. * (1.0 - cosA)]. *)
Example hue_rotation_matrix_example :
  hue_rotation_matrix (S754_finite false 4967757600021511 (-106)) (of_Z 1)
  = ((S754_finite false 6004799503160662 (-54),
      S754_finite true 8791636651155912 (-55),
      S754_finite false 8202708665949638 (-53)),
     (S754_finite false 8202708665949638 (-53),
      S754_finite false 6004799503160661 (-54),
      S754_finite true 8791636651155912 (-55)),
     (S754_finite true 8791636651155912 (-55),
      S754_finite false 8202708665949638 (-53),
      S754_finite false 6004799503160661 (-54))).
Proof. vm_compute. reflexivity. Qed.

Example example_cfg_init :
  ColorJitter_init (PyNum (lit 3 4)) (PyNum (lit 3 4)) (PyNum (lit 3 4))
                   (PyNum (lit 1 10))
  = Ok example_cfg.
Proof. vm_compute. reflexivity. Qed.

Example default_init :
  ColorJitter_init (PyNum (of_Z 0)) (PyNum (of_Z 0)) (PyNum (of_Z 0))
                   (PyNum (of_Z 0))
  = Ok {| brightness := None; contrast := None; saturation := None; hue := None |}.
Proof. vm_compute. reflexivity. Qed.

(** The bound of a parameter is tested on pairs only: a single hue of 1
    is accepted and gives the range (-1, 1). *)
Example hue_number_not_bounded :
  check_hue (PyNum (of_Z 1)) = Ok (Some (of_Z (-1), of_Z 1)).
Proof. vm_compute. reflexivity. Qed.

Example example_write :
  let ds_a : EnvDataset nat := {| root := "/data/PACS/A"; samples := [] |} in
  let ds_c : EnvDataset nat := {| root := "/data/PACS/C"; samples := [] |} in
  write example_registry example_args
  = Ok [ Print "Writting beton files for PACS dataset";
         Print "Writting A beton file";
         NewDatasetWriter (beton_writer "A" ds_a);
         FromIndexedDataset (beton_writer "A" ds_a) ds_a;
         Print "Writting C beton file";
         NewDatasetWriter (beton_writer "C" ds_c);
         FromIndexedDataset (beton_writer "C" ds_c) ds_c ].
Proof. vm_compute. reflexivity. Qed.

(** ** Arrays *)

Lemma arr_map_compose {A B D} (f : A -> B) (g : B -> D) (a : list (list A)) :
  arr_map g (arr_map f a) = arr_map (g ∘ f) a.
Proof.
  unfold arr_map. rewrite <- list_fmap_compose.
  apply list_fmap_ext. intros _ r _. simpl. by rewrite <- list_fmap_compose.
Qed.

Lemma arr_map_ext {A B} (f g : A -> B) (a : list (list A)) :
  (forall x, f x = g x) -> arr_map f a = arr_map g a.
Proof.
  intros E. unfold arr_map. apply list_fmap_ext. intros _ r _.
  apply list_fmap_ext. intros _ x _. apply E.
Qed.

Lemma zip_with_diag {A B C D} (f : B -> C -> A) (g : D -> B) (h : D -> C)
  (l : list D) :
  zip_with f (g <$> l) (h <$> l) = (fun x => f (g x) (h x)) <$> l.
Proof. induction l as [|x l IH]; [done|]. rewrite !fmap_cons. simpl. by f_equal. Qed.

Lemma arr_map2_diag {A B C D} (f : B -> C -> A) (g : D -> B) (h : D -> C)
  (a : list (list D)) :
  arr_map2 f (arr_map g a) (arr_map h a) = arr_map (fun x => f (g x) (h x)) a.
Proof.
  unfold arr_map2, arr_map. rewrite zip_with_diag.
  apply list_fmap_ext. intros _ r _. apply zip_with_diag.
Qed.

Lemma arr_get_map {A B} (f : A -> B) (a : list (list A)) row col :
  arr_get (arr_map f a) row col = f <$> arr_get a row col.
Proof.
  unfold arr_get, arr_map. rewrite list_lookup_fmap.
  destruct (a !! row) as [r|]; simpl; [|done]. by rewrite list_lookup_fmap.
Qed.

Lemma dims_arr_map {A B} (f : A -> B) (a : list (list A)) :
  dims (arr_map f a) = dims a.
Proof.
  unfold dims, arr_map. rewrite <- list_fmap_compose.
  apply list_fmap_ext. intros _ r _. simpl. apply length_fmap.
Qed.

(** ** The blends as pointwise maps *)

Lemma pix_map_compose {A B C} (f : A -> B) (g : B -> C) (p : pixel A) :
  pix_map g (pix_map f p) = pix_map (g ∘ f) p.
Proof. by destruct p as [[r g0] b]. Qed.

(** [blend] with a scalar second operand. *)
Lemma blend_scalar img x ratio :
  blend img (Scalar x) ratio = blend_spec ratio (fun _ => (x, x, x)) img.
Proof.
  unfold blend, blend_spec. rewrite !arr_map_compose.
  apply arr_map_ext. intros [[r g] b]. reflexivity.
Qed.

(** [blend] with an image computed pixel by pixel from the first. *)
Lemma blend_array img ratio (o : pixel Z -> pixel Z) :
  blend img (Array (arr_map o img)) ratio
  = blend_spec ratio (fun p => pix_map of_Z (o p)) img.
Proof.
  unfold blend, blend_spec. rewrite !arr_map_compose, arr_map2_diag, arr_map_compose.
  apply arr_map_ext. intros [[r g] b]. simpl. destruct (o (r, g, b)) as [[r' g'] b'].
  reflexivity.
Qed.

(** The loop over the channels fills [l_img3] with the gray value. *)
Lemma l_img3_broadcast img :
  foldl (fun acc j => arr_map2 (fun p v => chan_set j v p) acc (l_img_of img))
        (arr_map (fun _ => (0, 0, 0)) img) (seq 0 3)
  = arr_map (fun p => let l := astype_uint8 (luma p) in (l, l, l)) img.
Proof.
  unfold l_img_of. simpl. rewrite !arr_map2_diag. apply arr_map_ext.
  intros p. reflexivity.
Qed.

Lemma adjust_saturation_spec img ratio :
  adjust_saturation img ratio = blend_spec ratio other_saturation img.
Proof.
  unfold adjust_saturation. rewrite l_img3_broadcast, blend_array. reflexivity.
Qed.

(** ** The pixel loops of the hue branch *)

Lemma alter_lookup_None {A} (f : A -> A) (l : list A) i :
  l !! i = None -> alter f i l = l.
Proof.
  intros E. apply list_eq. intros j. rewrite list_lookup_alter.
  case_decide; [subst; by rewrite E | done].
Qed.

Lemma alter_alter {A} (f g : A -> A) (l : list A) i :
  alter f i (alter g i l) = alter (f ∘ g) i l.
Proof.
  apply list_eq. intros j. rewrite !list_lookup_alter.
  repeat case_decide; try done. by destruct (l !! i).
Qed.

(** A loop over [range(n)] that rewrites element [i] at turn [i]. *)
Lemma foldl_alter_seq_lookup {A} (F : nat -> A -> A) (l : list A) (n j : nat) :
  foldl (fun l i => alter (F i) i l) l (seq 0 n) !! j
  = if decide (j < n)%nat then F j <$> l !! j else l !! j.
Proof.
  induction n as [|n IH].
  - destruct (decide (j < 0)%nat); [lia | done].
  - rewrite seq_S, foldl_app. simpl. rewrite list_lookup_alter.
    destruct (decide (n = j)) as [<-|E].
    + rewrite IH. repeat case_decide; try done; lia.
    + rewrite IH. repeat case_decide; try done; lia.
Qed.

Lemma length_foldl_alter {A} (f : A -> A) (cols : list nat) (r : list A) :
  length (foldl (fun r col => alter f col r) r cols) = length r.
Proof.
  revert r. induction cols as [|c cols IH]; intros r; simpl; [done|].
  by rewrite IH, length_alter.
Qed.

Lemma width_lookup {A} (a : list (list A)) :
  width a = from_option length 0%nat (a !! 0%nat).
Proof. by destruct a. Qed.

Lemma width_alter {A} (G : list A -> list A) (a : list (list A)) n :
  (forall r, length (G r) = length r) -> width (alter G n a) = width a.
Proof. intros HG. destruct a as [|r a], n as [|n]; simpl; auto. Qed.

(** The three channel writes of one turn amount to one matrix-vector
    product on the pixel read before them. *)
Lemma hue_pixel_alter m img row col :
  hue_pixel m img row col = alter (alter (mat_vec m) col) row img.
Proof.
  unfold hue_pixel.
  destruct (arr_get img row col) as [p|] eqn:E; unfold arr_get in E;
    destruct (img !! row) as [r|] eqn:Er; simpl in E; try done.
  - destruct m as [[m0 m1] m2]. unfold arr_set_chan. cbv zeta.
    rewrite !alter_alter.
    apply list_alter_ext; [|done]. intros r' Er'. unfold compose.
    rewrite Er in Er'. injection Er' as <-.
    rewrite !alter_alter.
    apply list_alter_ext; [|done]. intros p' Ep'.
    rewrite E in Ep'. injection Ep' as <-.
    destruct p as [[r0 g0] b0]. reflexivity.
  - symmetry. rewrite <- (list_alter_id id img row) at 2 by done.
    apply list_alter_ext; [|done]. intros r' Er'.
    rewrite Er in Er'. injection Er' as <-. by apply alter_lookup_None.
  - symmetry. by apply alter_lookup_None.
Qed.

Lemma hue_row_loop m (img : image float) row (cols : list nat) :
  foldl (fun img col => hue_pixel m img row col) img cols
  = alter (fun r => foldl (fun r col => alter (mat_vec m) col r) r cols) row img.
Proof.
  revert img. induction cols as [|c cols IH]; intros img; simpl.
  - symmetry. by apply list_alter_id.
  - rewrite IH, hue_pixel_alter, alter_alter. done.
Qed.

Lemma hue_row_full m (r : list (pixel float)) :
  foldl (fun r col => alter (mat_vec m) col r) r (seq 0 (length r))
  = mat_vec m <$> r.
Proof.
  apply list_eq. intros j. rewrite foldl_alter_seq_lookup, list_lookup_fmap.
  case_decide as E; [done|].
  rewrite (lookup_ge_None_2 r j) by lia. done.
Qed.

(** After [n] rows, the first [n] rows are rotated and the others are as
    they were. *)
Lemma hue_loops_prefix m (img : image float) (n : nat) :
  rectangular img ->
  let a :=
    foldl (fun (img : image float) (row : nat) =>
             foldl (fun img col => hue_pixel m img row col) img (seq 0 (width img)))
          img (seq 0 n) in
  width a = width img /\
  forall j, a !! j = if decide (j < n)%nat
                     then (fun r => mat_vec m <$> r) <$> img !! j else img !! j.
Proof.
  intros Hrect. induction n as [|n [IHw IH]].
  - simpl. split; [done|]. intros j. destruct (decide (j < 0)%nat); [lia | done].
  - cbv zeta. rewrite seq_S, foldl_app. simpl.
    set (a := foldl _ img (seq 0 n)) in *.
    rewrite hue_row_loop, IHw.
    split.
    + transitivity (width a); [|exact IHw]. apply width_alter. intros r.
      apply length_foldl_alter.
    + intros j. rewrite list_lookup_alter.
      destruct (decide (n = j)) as [<-|Hne].
      * rewrite IH. case_decide; [lia|]. case_decide; [|lia].
        destruct (img !! n) as [r|] eqn:Er; [|done]. simpl. f_equal.
        assert (length r = width img) as <-.
        { unfold rectangular in Hrect. rewrite Forall_lookup in Hrect. eauto. }
        apply hue_row_full.
      * rewrite IH. repeat case_decide; try done; lia.
Qed.

Lemma hue_loops_map m (img : image float) :
  rectangular img -> hue_loops m img = arr_map (mat_vec m) img.
Proof.
  intros Hrect. destruct (hue_loops_prefix m img (height img) Hrect) as [_ H].
  apply list_eq. intros j. unfold hue_loops. rewrite H.
  unfold arr_map. rewrite list_lookup_fmap. case_decide as E; [done|].
  unfold height in E. rewrite (lookup_ge_None_2 img j) by lia. done.
Qed.

Lemma width_arr_map {A B} (f : A -> B) (a : list (list A)) :
  width (arr_map f a) = width a.
Proof. destruct a as [|r a]; simpl; [done | apply length_fmap]. Qed.

Lemma rectangular_arr_map {A B} (f : A -> B) (a : list (list A)) :
  rectangular a -> rectangular (arr_map f a).
Proof.
  unfold rectangular. rewrite width_arr_map. intros H.
  unfold arr_map. apply Forall_fmap. eapply Forall_impl; [exact H|].
  intros r Hr. simpl. by rewrite length_fmap.
Qed.

(** ** The grayscale value and the mean *)

(** The literals 0.587 and 0.5870, and 0.114 and 0.1140, are the same
    doubles. *)
Lemma literal_weights :
  lit 587 1000 = lit 5870 10000 /\ lit 114 1000 = lit 1140 10000.
Proof. split; vm_compute; reflexivity. Qed.

Lemma luma_gray_value px : luma px = gray_value px.
Proof.
  destruct px as [[r g] b]. unfold luma, gray_value.
  destruct literal_weights as [-> ->]. reflexivity.
Qed.

Lemma gray_plane img : concat (arr_map luma img) = gray_value <$> concat img.
Proof.
  unfold arr_map. induction img as [|r img IH]; [done|].
  rewrite fmap_cons. simpl. rewrite IH, fmap_app.
  apply (f_equal (fun l => l ++ (gray_value <$> concat img))).
  apply list_fmap_ext. intros _ px _. apply luma_gray_value.
Qed.

Lemma foldl_add_lane (f : nat -> float) (x : float) (t : nat) :
  foldl add (add x (f 0%nat)) ((fun j => f (S j)) <$> seq 0 t)
  = foldl add x (f <$> seq 0 (S t)).
Proof.
  change (seq 0 (S t)) with (0%nat :: seq 1 t). rewrite fmap_cons. simpl.
  by rewrite <- fmap_S_seq, <- list_fmap_compose.
Qed.

(** After [t] turns from the index [i], the running sum [k] has taken in
    the elements [i + k], [i + 8 + k], ... *)
Lemma unrolled_loop_lane (t i : nat) (a r : list float) (k : nat) :
  (k < 8)%nat -> length r = 8%nat -> (i + 8 * t <= length a)%nat ->
  nth k (unrolled_loop t i a r) zero
  = foldl add (nth k r zero) ((fun j => nth (i + 8 * j + k) a zero) <$> seq 0 t).
Proof.
  intros Hk. revert i r. induction t as [|t IH]; intros i r Hr Hi; [done|].
  cbn [unrolled_loop]. rewrite IH.
  - rewrite <- (foldl_add_lane (fun j => nth (i + 8 * j + k) a zero)).
    f_equal.
    + assert (Hz : zip_with add r (take 8 (drop i a)) !! k
                   = Some (add (nth k r zero) (nth (i + k) a zero))).
      { rewrite lookup_zip_with, lookup_take, decide_True by done.
        rewrite lookup_drop.
        destruct (lookup_lt_is_Some_2 r k) as [x Hx]; [lia|].
        destruct (lookup_lt_is_Some_2 a (i + k)) as [y Hy]; [lia|].
        rewrite Hx, Hy. simpl.
        by rewrite (nth_lookup_Some _ _ _ _ Hx), (nth_lookup_Some _ _ _ _ Hy). }
      rewrite (nth_lookup_Some _ _ _ _ Hz). do 2 f_equal. lia.
    + apply list_fmap_ext. intros _ j _. f_equal. lia.
  - rewrite length_zip_with, length_take, length_drop. lia.
  - lia.
Qed.

Lemma lane_head (k : nat) (a : list float) :
  (8 <= length a)%nat ->
  lane k a = nth k a zero
             :: ((fun j => nth (8 + 8 * j + k) a zero) <$> seq 0 (length a / 8 - 1)).
Proof.
  intros Hn. unfold lane.
  assert (E : (length a / 8 = S (length a / 8 - 1))%nat).
  { pose proof (Nat.div_le_lower_bound (length a) 8 1). lia. }
  rewrite E at 1. change (seq 0 (S ?t)) with (0%nat :: seq 1 t).
  rewrite fmap_cons, <- fmap_S_seq, <- list_fmap_compose. f_equal.
  apply list_fmap_ext. intros _ j _. simpl. f_equal. lia.
Qed.

Lemma unrolled_loop_running_sum (a : list float) (k : nat) :
  (k < 8)%nat -> (8 <= length a)%nat ->
  nth k (unrolled_loop (length a / 8 - 1) 8 a (take 8 a)) zero
  = running_sum (lane k a).
Proof.
  intros Hk Hn. rewrite unrolled_loop_lane.
  - rewrite lane_head by done. simpl. f_equal.
    destruct (lookup_lt_is_Some_2 a k) as [x Hx]; [lia|].
    rewrite (nth_lookup_Some _ _ _ _ Hx). apply nth_lookup_Some.
    by rewrite lookup_take, decide_True.
  - done.
  - rewrite length_take. lia.
  - pose proof (Nat.Div0.mul_div_le (length a) 8). lia.
Qed.

Lemma pairwise_block (a : list float) :
  (8 <= length a)%nat ->
  (let r := unrolled_loop (length a / 8 - 1) 8 a (take 8 a) in
   let at_ k := nth k r zero in
   foldl add
     (add (add (add (at_ 0%nat) (at_ 1%nat)) (add (at_ 2%nat) (at_ 3%nat)))
          (add (add (at_ 4%nat) (at_ 5%nat)) (add (at_ 6%nat) (at_ 7%nat))))
     (drop (length a - length a mod 8) a))
  = block_sum a.
Proof.
  intros Hn. cbv zeta. unfold block_sum.
  rewrite !unrolled_loop_running_sum by (done || lia).
  do 2 f_equal. pose proof (Nat.div_mod_eq (length a) 8). lia.
Qed.

(** The sums of the kernel are the sums of the specification, whatever
    the fuel. *)
Lemma pairwise_sum_value (fuel : nat) (a : list float) :
  pairwise_sum fuel a = sum_value fuel a.
Proof.
  revert a. induction fuel as [|fuel IH]; intros a; cbn [pairwise_sum sum_value].
  - destruct (length a <? 8)%nat eqn:E8; [done|].
    destruct (length a <=? 128)%nat; [|done].
    apply pairwise_block. apply Nat.ltb_ge in E8. done.
  - destruct (length a <? 8)%nat eqn:E8; [done|].
    destruct (length a <=? 128)%nat; [apply pairwise_block; by apply Nat.ltb_ge in E8|].
    cbv zeta.
    assert (E : (length a / 2 - (length a / 2) mod 8 = 8 * (length a / 16))%nat).
    { pose proof (Nat.div_mod_eq (length a / 2) 8) as H.
      rewrite Nat.Div0.div_div in H. change (2 * 8)%nat with 16%nat in H. lia. }
    rewrite E. by rewrite !IH.
Qed.

(** The fuel plays no part once it is the length of the list. *)
Lemma sum_value_fuel (f1 f2 : nat) (a : list float) :
  (length a <= f1)%nat -> (length a <= f2)%nat -> sum_value f1 a = sum_value f2 a.
Proof.
  revert f2 a. induction f1 as [|f1 IH]; intros f2 a H1 H2.
  - destruct a; [|simpl in H1; lia]. by destruct f2.
  - destruct f2 as [|f2].
    { destruct a; [done | simpl in H2; lia]. }
    cbn [sum_value].
    destruct (length a <? 8)%nat; [done|].
    destruct (length a <=? 128)%nat eqn:E; [done|].
    apply Nat.leb_gt in E. cbv zeta.
    pose proof (Nat.Div0.mul_div_le (length a) 16) as Hd.
    assert (Hpos : (8 <= 8 * (length a / 16))%nat).
    { pose proof (Nat.div_le_lower_bound (length a) 16 1). lia. }
    f_equal; apply IH; rewrite ?length_take, ?length_drop; lia.
Qed.

Lemma np_mean_value (a : plane float) : np_mean a = mean_value (concat a).
Proof. unfold np_mean, np_sum, mean_value. by rewrite pairwise_sum_value. Qed.

(** The second operand of the contrast blend. *)
Lemma adjust_contrast_spec img ratio :
  adjust_contrast img ratio = blend_spec ratio (other_contrast img) img.
Proof.
  unfold adjust_contrast. rewrite blend_scalar. unfold other_contrast.
  by rewrite np_mean_value, gray_plane.
Qed.

(** ** The branches of [color_jitter] *)

Section KernelFacts.

Context {rng : Type} {HNumpy : Numpy rng}.

Lemma adjust_hue_spec img hue_factor :
  rectangular img -> adjust_hue img hue_factor = hue_spec hue_factor img.
Proof.
  intros Hrect. unfold adjust_hue, hue_spec.
  rewrite hue_loops_map by by apply rectangular_arr_map.
  rewrite !arr_map_compose. apply arr_map_ext. intros [[red green] blue].
  reflexivity.
Qed.

Lemma update_image_run (F : image Z -> image Z) images i h (g : rng) b img :
  h !! images = Some b -> b !! i = Some img ->
  kbind (load_image images i) (fun img => store_image images i (F img)) (h, g)
  = Some (tt, (<[images := <[i := F img]> b]> h, g)).
Proof.
  intros Hb Hi. unfold kbind, load_image, store_image. rewrite Hb. simpl.
  rewrite Hi. simpl. rewrite Hb. simpl.
  apply lookup_lt_Some in Hi. by rewrite decide_True.
Qed.

(** C1 (amended).  In the kernel of [ColorJitter.generate_code], the
    brightness, contrast and saturation branches replace image [i] by the
    blend [clip(ratio*img + (1-ratio)*other, 0, 255)] cast to uint8, where
    [ratio] is the draw of [np.random.uniform] on the configured range of
    that jitter and [other] is 0 for brightness, the mean of the grayscale
    image for contrast, and, for saturation, the per-pixel grayscale value
    cast to uint8 and replicated over the three channels. *)
Theorem color_jitter_blend cfg images i h g b img lo hi ratio g' :
  h !! images = Some b -> b !! i = Some img ->
  np_random_uniform lo hi g = (ratio, g') ->
  (brightness cfg = Some (lo, hi) ->
   jitter_branch cfg images i 0 (h, g)
   = Some (tt, (<[images := <[i := blend_spec ratio other_brightness img]> b]> h, g')))
  /\ (contrast cfg = Some (lo, hi) ->
      jitter_branch cfg images i 1 (h, g)
      = Some (tt, (<[images := <[i := blend_spec ratio (other_contrast img) img]> b]> h,
                   g')))
  /\ (saturation cfg = Some (lo, hi) ->
      jitter_branch cfg images i 2 (h, g)
      = Some (tt, (<[images := <[i := blend_spec ratio other_saturation img]> b]> h,
                   g'))).
Proof.
  intros Hb Hi Hu.
  repeat split; intros Hc; unfold jitter_branch; simpl; rewrite Hc;
    unfold kbind at 1, draw; rewrite Hu;
    rewrite (update_image_run _ _ _ _ _ _ _ Hb Hi); do 5 f_equal.
  - apply blend_scalar.
  - apply adjust_contrast_spec.
  - apply adjust_saturation_spec.
Qed.

(** C2.  When the hue jitter is configured and selected, the kernel scales
    the image to [0, 1], builds the rotation matrix of the angle
    [hue_factor * 2 * pi], with [hue_factor] the draw of
    [np.random.uniform] on the configured hue range, replaces every pixel by
    the product of the matrix with it, scales by 255, clips to [0, 255] and
    stores the result as uint8. *)
Theorem color_jitter_hue cfg images i h g b img lo hi hue_factor g' :
  h !! images = Some b -> b !! i = Some img -> rectangular img ->
  hue cfg = Some (lo, hi) ->
  np_random_uniform lo hi g = (hue_factor, g') ->
  jitter_branch cfg images i 3 (h, g)
  = Some (tt, (<[images := <[i := hue_spec hue_factor img]> b]> h, g')).
Proof.
  intros Hb Hi Hrect Hc Hu. unfold jitter_branch. simpl. rewrite Hc.
  unfold kbind, load_image, draw, store_image. rewrite Hb. simpl. rewrite Hi. simpl.
  rewrite Hu, Hb. simpl. apply lookup_lt_Some in Hi as Hlt.
  rewrite decide_True by done. by rewrite adjust_hue_spec.
Qed.

End KernelFacts.

(** ** Range and shape *)

Lemma astype_uint8_range x : is_uint8 (astype_uint8 x).
Proof. unfold is_uint8, astype_uint8. apply Z.mod_pos_bound. lia. Qed.

Lemma image_uint8_cast {A} (f : A -> float) (a : image A) :
  image_uint8 (arr_map (pix_map (fun x => astype_uint8 (f x))) a).
Proof.
  unfold image_uint8, arr_map. apply Forall_fmap, Forall_true. intros r. simpl.
  apply Forall_fmap, Forall_true. intros [[x y] z]. simpl.
  repeat split; apply astype_uint8_range.
Qed.

Lemma dims_arr_map2 {A B C} (f : A -> B -> C) (a : list (list A)) (b : list (list B)) :
  dims b = dims a -> dims (arr_map2 f a b) = dims a.
Proof.
  unfold dims, arr_map2. revert b.
  induction a as [|r a IH]; intros [|r' b]; simpl; try done.
  intros [= E1 E2]. f_equal; [|by apply IH].
  rewrite length_zip_with. lia.
Qed.

Lemma dims_alter {A} (G : list A -> list A) (a : list (list A)) n :
  (forall r, length (G r) = length r) -> dims (alter G n a) = dims a.
Proof.
  intros HG. unfold dims. revert n.
  induction a as [|r a IH]; intros [|n]; csimpl; f_equal; auto.
Qed.

Lemma dims_blend img arg ratio :
  match arg with Scalar _ => True | Array a => dims a = dims img end ->
  dims (blend img arg ratio) = dims img.
Proof.
  intros H. unfold blend. rewrite dims_arr_map. destruct arg as [x|a].
  - by rewrite !dims_arr_map.
  - rewrite dims_arr_map2; by rewrite !dims_arr_map.
Qed.

Lemma dims_hue_loops m (img : image float) : dims (hue_loops m img) = dims img.
Proof.
  unfold hue_loops. generalize (seq 0 (height img)) as rows.
  intros rows. induction rows as [|row rows IH] using rev_ind; [done|].
  rewrite foldl_app. simpl. rewrite hue_row_loop, dims_alter; [done|].
  intros r. apply length_foldl_alter.
Qed.

Lemma to_grayscale_spec img : to_grayscale img = grayscale_spec img.
Proof. unfold to_grayscale, broadcast_last, l_img_of. by rewrite arr_map_compose. Qed.

Lemma keeps_brightness ratio : keeps_image (fun img => adjust_brightness img ratio).
Proof. intros img. split; [apply image_uint8_cast | by apply dims_blend]. Qed.

Lemma keeps_contrast ratio : keeps_image (fun img => adjust_contrast img ratio).
Proof. intros img. split; [apply image_uint8_cast | by apply dims_blend]. Qed.

Lemma keeps_saturation ratio : keeps_image (fun img => adjust_saturation img ratio).
Proof.
  intros img. split; [apply image_uint8_cast|].
  unfold adjust_saturation. apply dims_blend.
  rewrite l_img3_broadcast. apply dims_arr_map.
Qed.

Lemma keeps_grayscale : keeps_image to_grayscale.
Proof.
  intros img. rewrite to_grayscale_spec. unfold grayscale_spec. split.
  - unfold image_uint8, arr_map. apply Forall_fmap, Forall_true. intros r. simpl.
    apply Forall_fmap, Forall_true. intros px. simpl.
    repeat split; apply astype_uint8_range.
  - apply dims_arr_map.
Qed.

Create HintDb keeps.
#[local] Hint Resolve keeps_brightness keeps_contrast keeps_saturation
  keeps_grayscale : keeps.

Lemma batch_inv_insert F b0 b i img :
  keeps_image F -> b !! i = Some img -> batch_inv b0 b ->
  batch_inv b0 (<[i := F img]> b).
Proof.
  intros HF Hi [Hs Hu]. destruct (HF img) as [HF1 HF2]. split.
  - unfold same_shape in *. rewrite list_fmap_insert, HF2, <- Hs.
    apply list_insert_id. by rewrite list_lookup_fmap, Hi.
  - by apply Forall_insert.
Qed.

(** ** The loops of the batch kernels *)

Section LoopFacts.

Context {rng : Type} {HNumpy : Numpy rng}.

Lemma keeps_hue hue_factor : keeps_image (fun img => adjust_hue img hue_factor).
Proof.
  intros img. split; [apply image_uint8_cast|].
  unfold adjust_hue. by rewrite dims_arr_map, dims_hue_loops, dims_arr_map.
Qed.

#[local] Hint Resolve keeps_hue : keeps.

Lemma for_each_app {T X} (xs ys : list X) (body : X -> K rng T unit) w :
  for_each (xs ++ ys) body w
  = kbind (for_each xs body) (fun _ => for_each ys body) w.
Proof.
  revert w. induction xs as [|x xs IH]; intros w; simpl; [done|].
  unfold kbind in *. destruct (body x w) as [[[] w']|]; [|done].
  by rewrite IH.
Qed.

(** A loop whose every turn keeps an invariant of the batch at [images],
    and touches nothing else in the store, does so as a whole. *)
Lemma for_each_inv {X} (P : batch -> Prop) (Q : X -> Prop) images h
  (xs : list X) (body : X -> K rng batch unit) :
  Forall Q xs ->
  (forall x b g, Q x -> P b ->
     exists b' g', body x (<[images := b]> h, g) = Some (tt, (<[images := b']> h, g'))
                   /\ P b') ->
  forall b g, P b ->
    exists b' g', for_each xs body (<[images := b]> h, g)
                  = Some (tt, (<[images := b']> h, g')) /\ P b'.
Proof.
  intros HQ Hbody. induction HQ as [|x xs Hx _ IH]; intros b g Hb; simpl.
  - by exists b, g.
  - destruct (Hbody x b g Hx Hb) as (b1 & g1 & E1 & H1).
    unfold kbind. rewrite E1. by apply IH.
Qed.

Lemma update_image_inv (F : image Z -> image Z) images i h (g : rng) b0 b :
  keeps_image F -> (i < length b)%nat -> batch_inv b0 b ->
  exists b', kbind (load_image images i) (fun img => store_image images i (F img))
               (<[images := b]> h, g)
             = Some (tt, (<[images := b']> h, g)) /\ batch_inv b0 b'.
Proof.
  intros HF Hi Hinv. destruct (lookup_lt_is_Some_2 b i Hi) as [img Himg].
  exists (<[i := F img]> b). split; [|by apply batch_inv_insert].
  erewrite update_image_run; [|apply lookup_insert_eq|exact Himg].
  by rewrite insert_insert_eq.
Qed.

Lemma draw_update_inv (F : float -> image Z -> image Z) lo hi images i h g b0 b :
  (forall x, keeps_image (F x)) -> (i < length b)%nat -> batch_inv b0 b ->
  exists b' g',
    kbind (draw (np_random_uniform lo hi))
      (fun x => kbind (load_image images i)
                  (fun img => store_image images i (F x img)))
      (<[images := b]> h, g)
    = Some (tt, (<[images := b']> h, g')) /\ batch_inv b0 b'.
Proof.
  intros HF Hi Hinv. unfold kbind at 1, draw.
  destruct (np_random_uniform lo hi g) as [x g'].
  destruct (update_image_inv (F x) images i h g' b0 b) as (b' & E & H'); auto.
  by exists b', g'.
Qed.

Lemma update_draw_inv (F : float -> image Z -> image Z) lo hi images i h g b0 b :
  (forall x, keeps_image (F x)) -> (i < length b)%nat -> batch_inv b0 b ->
  exists b' g',
    kbind (load_image images i)
      (fun img => kbind (draw (np_random_uniform lo hi))
                    (fun x => store_image images i (F x img)))
      (<[images := b]> h, g)
    = Some (tt, (<[images := b']> h, g')) /\ batch_inv b0 b'.
Proof.
  intros HF Hi Hinv. destruct (lookup_lt_is_Some_2 b i Hi) as [img Himg].
  unfold kbind, load_image, draw, store_image. rewrite lookup_insert_eq. simpl.
  rewrite Himg. simpl. destruct (np_random_uniform lo hi g) as [x g'].
  rewrite lookup_insert_eq. simpl. rewrite decide_True by done.
  exists (<[i := F x img]> b), g'. rewrite insert_insert_eq.
  split; [done|]. by apply batch_inv_insert.
Qed.

Lemma jitter_branch_inv cfg images i fn h g b0 b :
  (i < length b)%nat -> batch_inv b0 b ->
  exists b' g', jitter_branch cfg images i fn (<[images := b]> h, g)
                = Some (tt, (<[images := b']> h, g')) /\ batch_inv b0 b'.
Proof.
  intros Hi Hinv. unfold jitter_branch.
  repeat case_match; subst; try (by exists b, g).
  all: first
    [ apply (draw_update_inv (fun x img => adjust_brightness img x))
    | apply (draw_update_inv (fun x img => adjust_contrast img x))
    | apply (draw_update_inv (fun x img => adjust_saturation img x))
    | apply (update_draw_inv (fun x img => adjust_hue img x)) ];
    auto with keeps.
Qed.

Lemma same_shape_length (b0 b : batch) : same_shape b0 b -> length b = length b0.
Proof. intros E. apply (f_equal length) in E. by rewrite !length_fmap in E. Qed.

Lemma kbind_shape0 {A} images (k : nat -> K rng batch A) h g b :
  h !! images = Some b -> kbind (shape0 images) k (h, g) = k (length b) (h, g).
Proof. intros Hb. unfold kbind, shape0. by rewrite Hb. Qed.

Lemma color_jitter_inv cfg images h g b :
  h !! images = Some b -> batch_uint8 b ->
  exists b' g', color_jitter cfg images (h, g)
                = Some (images, (<[images := b']> h, g')) /\ batch_inv b b'.
Proof.
  intros Hb Hu. unfold color_jitter. rewrite (kbind_shape0 _ _ _ _ _ Hb).
  unfold kbind at 1.
  assert (Hw : (h, g) = (<[images := b]> h, g)) by (by rewrite insert_id).
  rewrite Hw.
  destruct (for_each_inv (fun b' => batch_inv b b') (fun i => (i < length b)%nat)
              images h (seq 0 (length b))
              (fun i =>
                 kbind (draw (np_random_permutation 4))
                   (fun fn_idx =>
                      for_each (seq 0 (length fn_idx))
                        (fun fn_id =>
                           match fn_idx !! fn_id with
                           | Some fn => jitter_branch cfg images i fn
                           | None => fun _ => None
                           end))))
    with (b := b) (g := g) as (b' & g' & E & H').
  - apply Forall_seq. intros j Hj. lia.
  - intros i b1 g1 Hi H1. unfold kbind, draw.
    destruct (np_random_permutation 4 g1) as [fn_idx g2].
    apply (for_each_inv (fun b' => batch_inv b b')
             (fun fn_id => (fn_id < length fn_idx)%nat)).
    + apply Forall_seq. intros j Hj. lia.
    + intros fn_id b2 g3 Hfn H2.
      destruct (lookup_lt_is_Some_2 fn_idx fn_id Hfn) as [fn ->].
      apply jitter_branch_inv; [|done].
      destruct H2 as [H2 _]. by rewrite (same_shape_length _ _ H2).
    + done.
  - by split.
  - exists b', g'. rewrite E. by split.
Qed.

Lemma np_random_rand_length n (g : rng) : length (np_random_rand n g).1 = n.
Proof.
  revert g. induction n as [|n IH]; intros g; simpl; [done|].
  destruct (np_random_random g) as [u g1]. specialize (IH g1).
  destruct (np_random_rand n g1) as [us g2]. simpl in *. by rewrite IH.
Qed.

End LoopFacts.

(** ** The loop of [rgb_to_grayscale] *)

Section GrayFacts.

Context {rng : Type} {HNumpy : Numpy rng}.

Lemma gray_loop_run (apply_grayscale : list bool) images h (g : rng) b n :
  (n <= length b)%nat -> length apply_grayscale = length b ->
  for_each (seq 0 n)
    (fun i =>
       match apply_grayscale !! i with
       | Some true =>
           kbind (load_image images i)
                 (fun img => store_image images i (to_grayscale img))
       | Some false => kret tt
       | None => fun _ => None
       end)
    (<[images := b]> h, g)
  = Some (tt, (<[images := foldl (fun b i => alter (gray_turn apply_grayscale i) i b)
                             b (seq 0 n)]> h, g)).
Proof.
  intros Hn Hlen. induction n as [|n IH]; [done|].
  rewrite seq_S, for_each_app, foldl_app. unfold kbind at 1.
  rewrite IH by lia. simpl.
  set (bn := foldl _ b (seq 0 n)).
  assert (Hbn : bn !! n = b !! n).
  { unfold bn. rewrite foldl_alter_seq_lookup. case_decide; [lia | done]. }
  destruct (lookup_lt_is_Some_2 b n) as [img Himg]; [lia|].
  destruct (lookup_lt_is_Some_2 apply_grayscale n) as [a Ha]; [lia|].
  rewrite Himg in Hbn.
  unfold kbind at 1. rewrite Ha.
  assert (Hnone : forall w : gmap nat batch * rng,
             kret (rng := rng) (T := batch) tt w = Some (tt, w)) by done.
  destruct a.
  - erewrite update_image_run; [|apply lookup_insert_eq|exact Hbn].
    rewrite insert_insert_eq. unfold kret. do 4 f_equal.
    apply list_eq. intros j. rewrite list_lookup_insert, list_lookup_alter.
    apply lookup_lt_Some in Hbn as Hlt.
    unfold gray_turn. rewrite Ha.
    destruct (decide (n = j)) as [<-|]; [|by rewrite decide_False by tauto].
    rewrite decide_True by done. by rewrite Hbn.
  - unfold kret. do 4 f_equal. symmetry. apply list_alter_id.
    intros x. unfold gray_turn. by rewrite Ha.
Qed.

Lemma gray_loop_result p (us : list float) (b : batch) :
  length us = length b ->
  foldl (fun b i => alter (gray_turn ((fun u => ltb u p) <$> us) i) i b)
        b (seq 0 (length b))
  = grayscale_batch p us b.
Proof.
  intros Hlen. apply list_eq. intros j.
  rewrite foldl_alter_seq_lookup. unfold grayscale_batch.
  rewrite lookup_zip_with. unfold gray_turn. rewrite list_lookup_fmap.
  case_decide as Hj.
  - destruct (lookup_lt_is_Some_2 b j Hj) as [img ->].
    destruct (lookup_lt_is_Some_2 us j) as [u ->]; [lia|]. simpl.
    rewrite to_grayscale_spec. by destruct (ltb u p).
  - rewrite (lookup_ge_None_2 b j) by lia.
    by destruct (us !! j).
Qed.

Lemma rgb_to_grayscale_run p images h g b us g' :
  h !! images = Some b -> np_random_rand (length b) g = (us, g') ->
  rgb_to_grayscale p images (h, g)
  = Some (images, (<[images := grayscale_batch p us b]> h, g')).
Proof.
  intros Hb Hr. unfold rgb_to_grayscale. rewrite (kbind_shape0 _ _ _ _ _ Hb).
  unfold kbind at 1, draw. rewrite Hr. unfold kbind.
  assert (Hlen : length us = length b).
  { pose proof (np_random_rand_length (length b) g) as H. by rewrite Hr in H. }
  assert (Hw : (h, g') = (<[images := b]> h, g')) by (by rewrite insert_id).
  rewrite Hw.
  pose proof (gray_loop_run ((fun u => ltb u p) <$> us) images h g' b (length b)) as E.
  unfold kbind in E. rewrite E; [|lia|by rewrite length_fmap].
  by rewrite gray_loop_result.
Qed.

End GrayFacts.

(** ** Comparisons and errors *)

Lemma leb_le_inf lo hi : leb lo hi = true -> leb hi inf = true.
Proof.
  unfold leb, SFleb, inf.
  destruct hi as [s|[]| |s m e]; try done; destruct lo as [s'|[]| |s' m' e']; done.
Qed.

Lemma rbind_ok {A B} (m : result A) (f : A -> result B) b :
  rbind m f = Ok b <-> exists a, m = Ok a /\ f a = Ok b.
Proof.
  destruct m as [a|e]; simpl; split.
  - intros H. by exists a.
  - by intros (a' & [= <-] & H).
  - done.
  - by intros (a' & [=] & _).
Qed.

(** ** The constructor of [ColorJitter] *)

Section InitFacts.

Context {rng : Type} {HNumpy : Numpy rng}.

(** C8.  [ColorJitter.__init__] validates each parameter: a negative number
    raises [ValueError]; a pair raises [ValueError] unless
    [0 <= min <= max] (brightness, contrast, saturation) or
    [-0.5 <= min <= max <= 0.5] (hue); anything else raises [TypeError];
    a range whose two ends equal the centre, as for the default 0, is
    stored as [None], and the kernel then never applies that jitter. *)
Theorem check_input_validation :
  (forall x, ltb x (of_Z 0) = true ->
     check_unit_centred (PyNum x) = Raise ValueError
     /\ check_hue (PyNum x) = Raise ValueError)
  /\ (forall lo hi,
        check_unit_centred (PySeq [lo; hi]) = Raise ValueError
        <-> ~ (leb (of_Z 0) lo = true /\ leb lo hi = true))
  /\ (forall lo hi,
        check_hue (PySeq [lo; hi]) = Raise ValueError
        <-> ~ (leb (lit (-1) 2) lo = true /\ leb lo hi = true
               /\ leb hi (lit 1 2) = true))
  /\ (forall v,
        v = PyOther \/ (exists xs, v = PySeq xs /\ length xs <> 2%nat) ->
        check_unit_centred v = Raise TypeError /\ check_hue v = Raise TypeError)
  /\ (forall v lo hi,
        (check_unit_centred v = Ok (Some (lo, hi)) ->
         (eqb lo hi && eqb hi (of_Z 1)) = false)
        /\ (check_hue v = Ok (Some (lo, hi)) ->
            (eqb lo hi && eqb hi (of_Z 0)) = false))
  /\ (forall lo hi,
        (leb (of_Z 0) lo = true -> leb lo hi = true ->
         check_unit_centred (PySeq [lo; hi])
         = Ok (if eqb lo hi && eqb hi (of_Z 1) then None else Some (lo, hi)))
        /\ (leb (lit (-1) 2) lo = true -> leb lo hi = true ->
            leb hi (lit 1 2) = true ->
            check_hue (PySeq [lo; hi])
            = Ok (if eqb lo hi && eqb hi (of_Z 0) then None else Some (lo, hi))))
  /\ (forall x, ltb x (of_Z 0) = false ->
        check_unit_centred (PyNum x)
        = Ok (let lo := py_max (sub (of_Z 1) x) (of_Z 0) in
              let hi := add (of_Z 1) x in
              if eqb lo hi && eqb hi (of_Z 1) then None else Some (lo, hi))
        /\ check_hue (PyNum x)
           = Ok (let lo := sub (of_Z 0) x in
                 let hi := add (of_Z 0) x in
                 if eqb lo hi && eqb hi (of_Z 0) then None else Some (lo, hi)))
  /\ (check_unit_centred (PyNum (of_Z 0)) = Ok None
      /\ check_hue (PyNum (of_Z 0)) = Ok None)
  /\ (forall b c s h cj,
        ColorJitter_init b c s h = Ok cj
        <-> check_unit_centred b = Ok (brightness cj)
            /\ check_unit_centred c = Ok (contrast cj)
            /\ check_unit_centred s = Ok (saturation cj)
            /\ check_hue h = Ok (hue cj))
  /\ (forall b c s h e,
        ColorJitter_init b c s h = Raise e ->
        check_unit_centred b = Raise e \/ check_unit_centred c = Raise e
        \/ check_unit_centred s = Raise e \/ check_hue h = Raise e)
  /\ (forall b c s h e,
        check_unit_centred b = Raise e \/ check_unit_centred c = Raise e
        \/ check_unit_centred s = Raise e \/ check_hue h = Raise e ->
        exists e', ColorJitter_init b c s h = Raise e')
  /\ (forall cfg images i (w : gmap nat batch * rng),
        (brightness cfg = None -> jitter_branch cfg images i 0 w = Some (tt, w))
        /\ (contrast cfg = None -> jitter_branch cfg images i 1 w = Some (tt, w))
        /\ (saturation cfg = None -> jitter_branch cfg images i 2 w = Some (tt, w))
        /\ (hue cfg = None -> jitter_branch cfg images i 3 w = Some (tt, w))).
Proof.
  split_and!.
  - intros x Hx. unfold check_unit_centred, check_hue, _check_input.
    by rewrite Hx.
  - intros lo hi. unfold check_unit_centred, _check_input. simpl.
    destruct (leb (of_Z 0) lo) eqn:E1; simpl; [|split; [intros _ [? _]; done | done]].
    destruct (leb lo hi) eqn:E2; simpl; [|split; [intros _ [_ ?]; done | done]].
    rewrite (leb_le_inf _ _ E2). simpl.
    split; [|intros H; destruct H; done].
    by destruct (eqb lo hi && eqb hi (of_Z 1)).
  - intros lo hi. unfold check_hue, _check_input. simpl.
    destruct (leb (lit (-1) 2) lo) eqn:E1; simpl;
      [|split; [intros _ [? _]; done | done]].
    destruct (leb lo hi) eqn:E2; simpl; [|split; [intros _ (_ & ? & _); done | done]].
    destruct (leb hi (lit 1 2)) eqn:E3; simpl;
      [|split; [intros _ (_ & _ & ?); done | done]].
    split; [|intros H; destruct H; done].
    by destruct (eqb lo hi && eqb hi (of_Z 0)).
  - intros v [-> | (xs & -> & Hlen)]; [done|].
    by destruct xs as [|? [|? [|? ?]]].
  - intros v lo hi; split; intros H.
    + unfold check_unit_centred, _check_input in H.
      apply rbind_ok in H as ([v0 v1] & _ & H).
      destruct (eqb v0 v1 && eqb v1 (of_Z 1)) eqn:E; [done|].
      by injection H as <- <-.
    + unfold check_hue, _check_input in H.
      apply rbind_ok in H as ([v0 v1] & _ & H).
      destruct (eqb v0 v1 && eqb v1 (of_Z 0)) eqn:E; [done|].
      by injection H as <- <-.
  - intros lo hi; split.
    + intros E1 E2. unfold check_unit_centred, _check_input. simpl.
      rewrite E1, E2, (leb_le_inf _ _ E2). simpl.
      by destruct (eqb lo hi && eqb hi (of_Z 1)).
    + intros E1 E2 E3. unfold check_hue, _check_input. simpl.
      rewrite E1, E2, E3. simpl.
      by destruct (eqb lo hi && eqb hi (of_Z 0)).
  - intros x H. split.
    + unfold check_unit_centred, _check_input. rewrite H. simpl.
      by destruct (eqb _ _ && eqb _ _).
    + unfold check_hue, _check_input. rewrite H. simpl.
      by destruct (eqb _ _ && eqb _ _).
  - by vm_compute.
  - by vm_compute.
  - intros b c s h cj. split.
    + unfold ColorJitter_init. intros H.
      apply rbind_ok in H as (b' & Eb & H). apply rbind_ok in H as (c' & Ec & H).
      apply rbind_ok in H as (s' & Es & H). apply rbind_ok in H as (h' & Eh & H).
      by injection H as <-.
    + intros (Eb & Ec & Es & Eh). unfold ColorJitter_init.
      rewrite Eb, Ec, Es, Eh. simpl. by destruct cj.
  - intros b c s h e. unfold ColorJitter_init.
    destruct (check_unit_centred b), (check_unit_centred c),
      (check_unit_centred s), (check_hue h); simpl;
      intros Hr; try discriminate Hr; injection Hr as ->; auto.
  - intros b c s h e. unfold ColorJitter_init.
    destruct (check_unit_centred b), (check_unit_centred c),
      (check_unit_centred s), (check_hue h); simpl;
      intros Hr; try (by eexists);
      destruct Hr as [Hr|[Hr|[Hr|Hr]]]; discriminate Hr.
  - intros cfg images i w. split_and!; intros E; unfold jitter_branch; simpl;
      by rewrite E.
Qed.
End InitFacts.

(** ** The operators and their kernels *)

Section OperatorFacts.

Context {rng : Type} {HNumpy : Numpy rng} {HFastCrop : FastCrop} {R : Type}.

Lemma post_init_ready (s : State R) : jit_ready s -> State_post_init s = Ok tt.
Proof.
  intros [Hd [d Ht]]. unfold State_post_init. rewrite Hd, Ht. simpl.
  by rewrite !andb_false_r.
Qed.

Lemma post_init_not_ready (s : State R) :
  jit_mode s = true -> ~ jit_ready s -> State_post_init s = Raise AssertionError.
Proof.
  intros Hj Hn. unfold State_post_init. rewrite Hj. simpl.
  destruct (String.eqb (device_type (device s)) "cpu") eqn:E; simpl; [|done].
  apply String.eqb_eq in E. destruct (dtype s) as [d|d] eqn:Ht; [|done].
  destruct Hn. split; [done | by exists d].
Qed.

Lemma replace_jit_mode_ready (s : State R) :
  jit_ready s ->
  replace_jit_mode s true
  = Ok (mkState true (device s) (shape s) (dtype s) (rest s)).
Proof. intros H. unfold replace_jit_mode. by rewrite post_init_ready. Qed.

Lemma replace_jit_mode_not_ready (s : State R) :
  ~ jit_ready s -> replace_jit_mode s true = Raise AssertionError.
Proof. intros H. unfold replace_jit_mode. by rewrite post_init_not_ready. Qed.

Lemma replace_shape_ready (s : State R) sh :
  jit_ready s ->
  replace_shape s sh
  = Ok (mkState (jit_mode s) (device s) sh (dtype s) (rest s)).
Proof. intros H. unfold replace_shape. by rewrite post_init_ready. Qed.

Lemma replace_shape_not_ready (s : State R) sh :
  jit_mode s = true -> ~ jit_ready s -> replace_shape s sh = Raise AssertionError.
Proof. intros Hj H. unfold replace_shape. by rewrite post_init_not_ready. Qed.

(** What the three declarations answer, on every state. *)
Lemma declare_jitter_ready (s : State R) :
  jit_ready s ->
  rbind (replace_jit_mode s true) (fun new_state =>
    Ok (new_state, Some {| aq_shape := shape s; aq_dtype := dtype s |}))
  = Ok (mkState true (device s) (shape s) (dtype s) (rest s),
        Some {| aq_shape := shape s; aq_dtype := dtype s |}).
Proof. intros H. by rewrite replace_jit_mode_ready. Qed.

Lemma declare_jitter_not_ready (s : State R) :
  ~ jit_ready s ->
  rbind (replace_jit_mode s true) (fun new_state =>
    Ok (new_state, Some {| aq_shape := shape s; aq_dtype := dtype s |}))
  = Raise AssertionError.
Proof. intros H. by rewrite replace_jit_mode_not_ready. Qed.

Lemma declare_crop_ready (rc : ResizedCrop.t) (s : State R) :
  jit_mode s = true -> jit_ready s ->
  declare_state_and_memory (rng := rng) rc s
  = Ok (mkState true (device s) [ResizedCrop.size rc; ResizedCrop.size rc; 3]
                (dtype s) (rest s),
        Some {| aq_shape := [ResizedCrop.size rc; ResizedCrop.size rc; 3];
                aq_dtype := uint8 |}).
Proof.
  intros Hj H. simpl. rewrite Hj, replace_shape_ready by done. simpl.
  by rewrite Hj.
Qed.

Lemma declare_crop_not_ready (rc : ResizedCrop.t) (s : State R) :
  jit_mode s = false \/ ~ jit_ready s ->
  declare_state_and_memory (rng := rng) rc s = Raise AssertionError.
Proof.
  intros H. simpl. destruct (jit_mode s) eqn:Hj; [|done].
  destruct H as [H|H]; [done|]. by rewrite replace_shape_not_ready.
Qed.

(** C3 (amended).  The three operators implement the operator interface:
    [generate_code] emits the kernel, and [declare_state_and_memory]
    answers with a state and one allocation query on a state that is on the
    cpu with a numpy dtype ([ResizedCrop] when that state is also in jit
    mode) and raises [AssertionError] on any other state.  [ColorJitter]
    and [RandomGrayscale] set [is_parallel] to [True] on the emitted
    function; the function emitted by [ResizedCrop] has no [is_parallel]
    attribute. *)
Theorem operators_interface (cj : ColorJitter) (rg : RandomGrayscale.t)
  (rc : ResizedCrop.t) :
  (generate_code (rng := rng) (R := R) cj
   = {| body := BatchKernel (color_jitter cj); is_parallel := Some true |}
   /\ forall s : State R,
        (jit_ready s ->
         exists s' q,
           declare_state_and_memory (rng := rng) cj s = Ok (s', Some q))
        /\ (~ jit_ready s ->
            declare_state_and_memory (rng := rng) cj s = Raise AssertionError))
  /\ (generate_code (rng := rng) (R := R) rg
      = {| body := BatchKernel (rgb_to_grayscale (RandomGrayscale.p rg));
           is_parallel := Some true |}
      /\ forall s : State R,
           (jit_ready s ->
            exists s' q,
              declare_state_and_memory (rng := rng) rg s = Ok (s', Some q))
           /\ (~ jit_ready s ->
               declare_state_and_memory (rng := rng) rg s = Raise AssertionError))
  /\ (generate_code (rng := rng) (R := R) rc
      = {| body := SampleKernel (resized_crop (ResizedCrop.ratio rc));
           is_parallel := None |}
      /\ forall s : State R,
           (jit_mode s = true -> jit_ready s ->
            exists s' q,
              declare_state_and_memory (rng := rng) rc s = Ok (s', Some q))
           /\ (jit_mode s = false \/ ~ jit_ready s ->
               declare_state_and_memory (rng := rng) rc s = Raise AssertionError)).
Proof.
  split_and!; try reflexivity.
  - intros s. split; intros H.
    + eexists _, _. by apply declare_jitter_ready.
    + by apply declare_jitter_not_ready.
  - intros s. split; intros H.
    + eexists _, _. by apply declare_jitter_ready.
    + by apply declare_jitter_not_ready.
  - intros s. split.
    + intros Hj H. eexists _, _. by apply declare_crop_ready.
    + apply declare_crop_not_ready.
Qed.



(** C7.  The function emitted by [ResizedCrop.generate_code] takes the
    centre crop [(i, j, h, w)] of the height, width and configured ratio,
    resizes the rows [i .. i+h] and columns [j .. j+w] of the input into
    the destination, and returns the destination; the input array is left
    as it was. *)
Theorem resized_crop_into_destination (self : ResizedCrop.t) im dst
  (h : gmap nat (image Z)) (g : rng) a d i j ch cw :
  h !! im = Some a -> h !! dst = Some d ->
  get_center_crop (Z.of_nat (height a)) (Z.of_nat (width a))
                  (ResizedCrop.ratio self) = (i, j, ch, cw) ->
  exists f,
    body (generate_code (rng := rng) (R := R) self) = SampleKernel f
    /\ f im dst (h, g)
       = Some (dst, (<[dst := resize_crop a i (i + ch) j (j + cw) d]> h, g))
    /\ (im <> dst ->
        (<[dst := resize_crop a i (i + ch) j (j + cw) d]> h) !! im = Some a).
Proof.
  intros Ha Hd Hc. eexists. split; [reflexivity|]. split.
  - unfold resized_crop. unfold kbind at 1. rewrite Ha. simpl. rewrite Hc.
    unfold kbind, call_resize_crop. rewrite Ha. simpl. by rewrite Hd.
  - intros Hne. by rewrite lookup_insert_ne.
Qed.

(** C10.  For each image of the batch on its own, the kernel of
    [RandomGrayscale] leaves the image unchanged when its draw [u] of
    [np.random.rand] is not below [p], and otherwise replaces the three
    channels of every pixel by the luma [0.2989*R + 0.587*G + 0.114*B]
    cast to uint8, so that the three channels are equal. *)
Theorem rgb_to_grayscale_per_image p images h g b us g' :
  h !! images = Some b -> np_random_rand (length b) g = (us, g') ->
  exists b',
    rgb_to_grayscale p images (h, g) = Some (images, (<[images := b']> h, g'))
    /\ length b' = length b
    /\ (forall i img, b !! i = Some img ->
          exists u, us !! i = Some u
                    /\ b' !! i = Some (if ltb u p then grayscale_spec img else img))
    /\ (forall img row col red green blue,
          arr_get img row col = Some (red, green, blue) ->
          let l := astype_uint8
                     (add (add (mul (lit 2989 10000) (of_Z red))
                               (mul (lit 587 1000) (of_Z green)))
                          (mul (lit 114 1000) (of_Z blue))) in
          arr_get (grayscale_spec img) row col = Some (l, l, l)).
Proof.
  intros Hb Hr. exists (grayscale_batch p us b).
  assert (Hlen : length us = length b).
  { pose proof (np_random_rand_length (length b) g) as Hl. by rewrite Hr in Hl. }
  split_and!.
  - by apply rgb_to_grayscale_run.
  - unfold grayscale_batch. rewrite length_zip_with. lia.
  - intros i img Hi. apply lookup_lt_Some in Hi as Hlt.
    destruct (lookup_lt_is_Some_2 us i) as [u Hu]; [lia|].
    exists u. split; [done|]. unfold grayscale_batch.
    by rewrite lookup_zip_with, Hu, Hi.
  - intros img row col red green blue Hpx. cbv zeta. unfold grayscale_spec.
    rewrite arr_get_map, Hpx. cbn [fmap option_fmap option_map]. cbv zeta.
    unfold gray_value. by destruct literal_weights as [<- <-].
Qed.

(** C9.  The kernels of [ColorJitter] and [RandomGrayscale] return the
    location of the batch they received, change the store at that location
    only, and leave a batch of the same shape whose values are uint8; each
    transformation of one image yields uint8 values and keeps the shape. *)
Theorem kernels_in_place cfg p images h (g : rng) b :
  h !! images = Some b -> batch_uint8 b ->
  (exists b' g',
     color_jitter cfg images (h, g) = Some (images, (<[images := b']> h, g'))
     /\ same_shape b b' /\ batch_uint8 b')
  /\ (exists b' g',
        rgb_to_grayscale p images (h, g) = Some (images, (<[images := b']> h, g'))
        /\ same_shape b b' /\ batch_uint8 b')
  /\ (forall img x,
        Forall (fun out => image_uint8 out /\ dims out = dims img)
               [adjust_brightness img x; adjust_contrast img x;
                adjust_saturation img x; adjust_hue img x; to_grayscale img]).
Proof.
  intros Hb Hu. split_and!.
  - destruct (color_jitter_inv cfg images h g b Hb Hu) as (b' & g' & E & Hs & Hu').
    by exists b', g'.
  - destruct (np_random_rand (length b) g) as [us g'] eqn:Hr.
    exists (grayscale_batch p us b), g'. split; [by apply rgb_to_grayscale_run|].
    assert (Hlen : length us = length b).
    { pose proof (np_random_rand_length (length b) g) as Hl. by rewrite Hr in Hl. }
    clear Hr Hb. unfold grayscale_batch, same_shape, batch_uint8 in *.
    revert us Hlen. induction Hu as [|img b Himg _ IH]; intros [|u us] Hlen;
      try done.
    simpl in Hlen. destruct (IH us) as [IH1 IH2]; [lia|]. simpl. split.
    + f_equal; [|done]. destruct (ltb u p); [|done].
      rewrite <- to_grayscale_spec. apply keeps_grayscale.
    + constructor; [|done]. destruct (ltb u p); [|done].
      rewrite <- to_grayscale_spec. apply keeps_grayscale.
  - intros img x. repeat constructor;
      first [ apply (keeps_brightness x img) | apply (keeps_contrast x img)
            | apply (keeps_saturation x img) | apply (keeps_hue x img)
            | apply (keeps_grayscale img) ].
Qed.

End OperatorFacts.

(** ** The writer script *)

Lemma trace_writers {X} (envs : list string) (dss : list (EnvDataset X)) :
  writers_of (concat (zip_with write_env envs dss)) = zip_with beton_writer envs dss.
Proof.
  revert dss. induction envs as [|env envs IH]; intros [|ds dss]; simpl; try done.
  unfold writers_of in *. simpl. by rewrite IH.
Qed.

Lemma trace_serialized {X} (envs : list string) (dss : list (EnvDataset X)) :
  serialized_of (concat (zip_with write_env envs dss))
  = zip_with (fun env ds => (beton_writer env ds, ds)) envs dss.
Proof.
  revert dss. induction envs as [|env envs IH]; intros [|ds dss]; simpl; try done.
  unfold serialized_of in *. simpl. by rewrite IH.
Qed.

(** C4.  For every environment of the selected dataset, [write] constructs
    one writer for the file [{env}.beton] under the root of that
    environment's dataset, with the two fields [image] (RGB image) and
    [label] (integer), and serializes the environment's dataset through it:
    one writer per environment. *)
Theorem write_one_beton_per_environment {X}
  (registry : gmap string (string -> MultipleDomainDataset X)) args ctor :
  registry !! Args.dataset args = Some ctor ->
  length (environments (ctor (Args.data_dir args)))
  = length (datasets (ctor (Args.data_dir args))) ->
  exists tr,
    write registry args = Ok tr
    /\ length (writers_of tr) = length (environments (ctor (Args.data_dir args)))
    /\ forall k env,
         environments (ctor (Args.data_dir args)) !! k = Some env ->
         exists ds,
           datasets (ctor (Args.data_dir args)) !! k = Some ds
           /\ writers_of tr !! k = Some (beton_writer env ds)
           /\ serialized_of tr !! k = Some (beton_writer env ds, ds).
Proof.
  intros Hreg Hlen. unfold write. rewrite Hreg.
  set (d := ctor (Args.data_dir args)) in *.
  eexists. split; [reflexivity|].
  change (writers_of (Print ?s :: ?t)) with (writers_of t).
  change (serialized_of (Print ?s :: ?t)) with (serialized_of t).
  rewrite trace_writers, trace_serialized. split.
  - rewrite length_zip_with. lia.
  - intros k env Hk. apply lookup_lt_Some in Hk as Hlt.
    destruct (lookup_lt_is_Some_2 (datasets d) k) as [ds Hds]; [lia|].
    exists ds. by rewrite !lookup_zip_with, Hk, Hds.
Qed.


(** ** The theorems at the example inputs *)

Lemma color_jitter_blend_witness :
  jitter_branch (HNumpy := example_numpy) example_cfg 0 0 0
    (example_row_store, 0%nat)
  = Some (tt, (<[0%nat := <[0%nat := blend_spec (lit 1 4) other_brightness
                                       example_row]> [example_row]]>
                 example_row_store, 1%nat))
  /\ jitter_branch (HNumpy := example_numpy) example_cfg 0 0 1
       (example_row_store, 0%nat)
     = Some (tt, (<[0%nat := <[0%nat := blend_spec (lit 1 4)
                                          (other_contrast example_row)
                                          example_row]> [example_row]]>
                    example_row_store, 1%nat))
  /\ jitter_branch (HNumpy := example_numpy) example_cfg 0 0 2
       (example_row_store, 0%nat)
     = Some (tt, (<[0%nat := <[0%nat := blend_spec (lit 1 4) other_saturation
                                          example_row]> [example_row]]>
                    example_row_store, 1%nat))
  /\ blend_spec (lit 1 4) other_brightness example_row
     = [[(7, 6, 58); (54, 45, 1); (8, 51, 32); (5, 35, 54); (22, 38, 28);
         (43, 38, 57); (34, 49, 63); (19, 45, 4); (28, 5, 22)]]
  /\ blend_spec (lit 1 4) (other_contrast example_row) example_row
     = [[(103, 102, 154); (150, 141, 97); (104, 147, 128); (101, 131, 150);
         (118, 134, 124); (139, 134, 153); (130, 145, 159); (115, 141, 100);
         (124, 101, 118)]]
  /\ blend_spec (lit 1 4) other_saturation example_row
     = [[(44, 44, 96); (183, 174, 130); (116, 159, 140); (90, 119, 139);
         (119, 136, 126); (167, 162, 182); (173, 188, 202); (118, 143, 102);
         (70, 48, 64)]].
Proof.
  destruct (color_jitter_blend (HNumpy := example_numpy) example_cfg 0%nat 0%nat
              example_row_store 0%nat [example_row] example_row
              (lit 1 4) (lit 7 4) (lit 1 4) 1%nat)
    as (H1 & H2 & H3); [reflexivity | reflexivity | reflexivity |].
  split; [apply H1; reflexivity|]. split; [apply H2; reflexivity|].
  split; [apply H3; reflexivity|].
  split_and!; vm_compute; reflexivity.
Defined.

Lemma saturation_blend_counterexample :
  jitter_branch (HNumpy := example_numpy) example_cfg 0 0 2 (example_store, 0%nat)
  <> Some (tt, (<[0%nat := <[0%nat := blend_spec (lit 1 4) other_saturation_float
                                        example_image]> example_batch]>
                  example_store, 1%nat)).
Proof.
  intros H.
  apply (f_equal (fun o : option (unit * (gmap nat batch * nat)) =>
                    match o with
                    | Some (_, (m, _)) => m !! 0%nat
                    | None => None
                    end)) in H.
  vm_compute in H. discriminate H.
Qed.

Lemma color_jitter_hue_witness :
  jitter_branch (HNumpy := quarter_turn_numpy) quarter_turn_cfg 0 0 3
    (example_colour_store, 0%nat)
  = Some (tt, (<[0%nat := <[0%nat := hue_spec (HNumpy := quarter_turn_numpy)
                                       (lit 1 4) example_colours]>
                             [example_colours]]> example_colour_store, 1%nat))
  /\ hue_spec (HNumpy := quarter_turn_numpy) (lit 1 4) example_colours
     = [[(85, 232, 0); (0, 85, 232); (90, 90, 89)]].
Proof.
  split; [|vm_compute; reflexivity].
  apply (color_jitter_hue (HNumpy := quarter_turn_numpy) quarter_turn_cfg 0%nat
           0%nat example_colour_store 0%nat [example_colours] example_colours
           (lit 1 4) (lit 1 2)).
  - reflexivity.
  - reflexivity.
  - repeat constructor.
  - reflexivity.
  - reflexivity.
Defined.

Lemma resized_crop_is_not_parallel :
  is_parallel
    (generate_code
       (Operation := ResizedCrop_Operation (rng := nat) (R := unit)
                       (HFastCrop := example_fast_crop))
       (ResizedCrop.init 224))
  <> Some true.
Proof. discriminate. Qed.

Lemma operators_interface_witness :
  (exists s' q,
     declare_state_and_memory
       (Operation := ColorJitter_Operation (rng := nat) (HNumpy := example_numpy))
       example_cfg example_state
     = Ok (s', Some q))
  /\ declare_state_and_memory
       (Operation := RandomGrayscale_Operation (rng := nat)
                       (HNumpy := example_numpy))
       RandomGrayscale.default example_cuda_state
     = Raise AssertionError
  /\ (exists s' q,
        declare_state_and_memory
          (Operation := ResizedCrop_Operation (rng := nat)
                          (HFastCrop := example_fast_crop))
          (ResizedCrop.init 224) example_jit_state
        = Ok (s', Some q))
  /\ declare_state_and_memory
       (Operation := ResizedCrop_Operation (rng := nat)
                       (HFastCrop := example_fast_crop))
       (ResizedCrop.init 224) example_torch_state
     = Raise AssertionError.
Proof.
  destruct (operators_interface (rng := nat) (HNumpy := example_numpy)
              (HFastCrop := example_fast_crop) (R := unit)
              example_cfg RandomGrayscale.default (ResizedCrop.init 224))
    as ((_ & Hcj) & (_ & Hrg) & (_ & Hrc)).
  split_and!.
  - apply (Hcj example_state). split; [reflexivity | by exists uint8].
  - apply (Hrg example_cuda_state). intros [H _]. discriminate H.
  - apply (Hrc example_jit_state); [reflexivity|].
    split; [reflexivity | by exists uint8].
  - apply (Hrc example_torch_state). by left.
Defined.





Lemma resized_crop_witness :
  exists f,
    body (generate_code
            (Operation := ResizedCrop_Operation (rng := nat) (R := unit)
                            (HFastCrop := example_fast_crop))
            (ResizedCrop.init 1))
    = SampleKernel f
    /\ f 0%nat 1%nat (example_images, 0%nat)
       = Some (1%nat,
               (<[1%nat := resize_crop (FastCrop := example_fast_crop)
                             [[(10, 20, 30); (40, 50, 60)]] 0 (0 + 1) 0 (0 + 1)
                             [[(0, 0, 0)]]]> example_images, 0%nat))
    /\ (0%nat <> 1%nat ->
        (<[1%nat := resize_crop (FastCrop := example_fast_crop)
                      [[(10, 20, 30); (40, 50, 60)]] 0 (0 + 1) 0 (0 + 1)
                      [[(0, 0, 0)]]]> example_images) !! 0%nat
        = Some [[(10, 20, 30); (40, 50, 60)]]).
Proof.
  apply (resized_crop_into_destination (rng := nat) (HFastCrop := example_fast_crop)
           (R := unit) (ResizedCrop.init 1) 0%nat 1%nat example_images 0%nat).
  - reflexivity.
  - reflexivity.
  - vm_compute. reflexivity.
Defined.

Lemma write_witness :
  exists tr,
    write example_registry example_args = Ok tr
    /\ length (writers_of tr) = 2%nat
    /\ forall k env,
         ["A"; "C"] !! k = Some env ->
         exists ds,
           datasets (example_dataset "/data") !! k = Some ds
           /\ writers_of tr !! k = Some (beton_writer env ds)
           /\ serialized_of tr !! k = Some (beton_writer env ds, ds).
Proof.
  apply (write_one_beton_per_environment example_registry example_args
           example_dataset).
  - vm_compute. reflexivity.
  - reflexivity.
Defined.

Lemma check_input_validation_witness :
  check_unit_centred (PyNum (of_Z (-1))) = Raise ValueError
  /\ check_hue (PyNum (of_Z (-1))) = Raise ValueError
  /\ check_unit_centred PyOther = Raise TypeError
  /\ check_hue PyOther = Raise TypeError
  /\ check_unit_centred (PySeq [of_Z 1; of_Z 1]) = Ok None
  /\ check_hue (PySeq [of_Z 0; of_Z 0]) = Ok None
  /\ (eqb (lit 1 4) (lit 7 4) && eqb (lit 7 4) (of_Z 1)) = false
  /\ (exists e,
        ColorJitter_init (PyNum (of_Z 0)) (PyNum (of_Z (-1))) PyOther PyOther
        = Raise e)
  /\ jitter_branch (HNumpy := example_numpy)
       {| brightness := None; contrast := None; saturation := None; hue := None |}
       0 0 0 (example_store, 0%nat)
     = Some (tt, (example_store, 0%nat)).
Proof.
  destruct (check_input_validation (HNumpy := example_numpy))
    as (Hneg & _ & _ & Hty & Hstored & Hseq & _ & _ & _ & _ & Hraise & Hnone).
  destruct (Hneg (of_Z (-1))) as [H1 H2]; [vm_compute; reflexivity|].
  destruct (Hty PyOther) as [H3 H4]; [by left|].
  destruct (Hseq (of_Z 1) (of_Z 1)) as [H5 _].
  destruct (Hseq (of_Z 0) (of_Z 0)) as [_ H6].
  destruct (Hstored (PyNum (lit 3 4)) (lit 1 4) (lit 7 4)) as [H7 _].
  destruct (Hnone {| brightness := None; contrast := None; saturation := None;
                     hue := None |} 0%nat 0%nat (example_store, 0%nat))
    as (H8 & _).
  split; [exact H1|]. split; [exact H2|]. split; [exact H3|]. split; [exact H4|].
  split; [apply H5; vm_compute; reflexivity|].
  split; [apply H6; vm_compute; reflexivity|].
  split; [apply H7; vm_compute; reflexivity|].
  split; [apply (Hraise _ _ _ _ ValueError); right; left; exact H1|].
  apply H8. reflexivity.
Defined.

Lemma kernels_in_place_witness :
  (exists b' g',
     color_jitter (HNumpy := example_numpy) example_cfg 0%nat (example_store, 0%nat)
     = Some (0%nat, (<[0%nat := b']> example_store, g'))
     /\ same_shape example_batch b' /\ batch_uint8 b')
  /\ (exists b' g',
        rgb_to_grayscale (HNumpy := example_numpy) (lit 1 10) 0%nat
          (example_store, 0%nat)
        = Some (0%nat, (<[0%nat := b']> example_store, g'))
        /\ same_shape example_batch b' /\ batch_uint8 b')
  /\ (forall img x,
        Forall (fun out => image_uint8 out /\ dims out = dims img)
               [adjust_brightness img x; adjust_contrast img x;
                adjust_saturation img x; adjust_hue (HNumpy := example_numpy) img x;
                to_grayscale img]).
Proof.
  apply (kernels_in_place (HNumpy := example_numpy) example_cfg (lit 1 10) 0%nat
           example_store 0%nat example_batch).
  - reflexivity.
  - repeat constructor; unfold is_uint8; lia.
Defined.

(** Two images and the draws 0.05 and 0.95 with [p = 0.1]: the first image
    is converted, the second is left as it was. *)
Lemma rgb_to_grayscale_witness :
  exists b',
    rgb_to_grayscale (HNumpy := alternating_numpy) (lit 1 10) 0%nat
      (example_pair_store, 0%nat)
    = Some (0%nat, (<[0%nat := b']> example_pair_store, 2%nat))
    /\ length b' = 2%nat
    /\ (forall i img, example_pair !! i = Some img ->
          exists u, [lit 1 20; lit 19 20] !! i = Some u
                    /\ b' !! i = Some (if ltb u (lit 1 10) then grayscale_spec img
                                       else img))
    /\ (forall img row col red green blue,
          arr_get img row col = Some (red, green, blue) ->
          let l := astype_uint8
                     (add (add (mul (lit 2989 10000) (of_Z red))
                               (mul (lit 587 1000) (of_Z green)))
                          (mul (lit 114 1000) (of_Z blue))) in
          arr_get (grayscale_spec img) row col = Some (l, l, l)).
Proof.
  apply (rgb_to_grayscale_per_image (HNumpy := alternating_numpy) (lit 1 10) 0%nat
           example_pair_store 0%nat example_pair [lit 1 20; lit 19 20] 2%nat).
  - reflexivity.
  - reflexivity.
Defined.

(** The batch that the kernel leaves in that run. *)
Example rgb_to_grayscale_example :
  rgb_to_grayscale (HNumpy := alternating_numpy) (lit 1 10) 0%nat
    (example_pair_store, 0%nat)
  = Some (0%nat, (<[0%nat := [ [[(1, 1, 1)]]; example_colours ]]>
                    example_pair_store, 2%nat)).
Proof.
  rewrite (rgb_to_grayscale_run (HNumpy := alternating_numpy) (lit 1 10) 0%nat
             example_pair_store 0%nat example_pair [lit 1 20; lit 19 20] 2%nat)
    by reflexivity.
  do 3 f_equal.
Qed.

(** * Further facts *)

(** ** All uint8 values at once *)

Lemma float_same_eq x y : float_same x y = true -> x = y.
Proof.
  destruct x as [s|s| |s m e], y as [s'|s'| |s' m' e']; simpl; try done.
  - by intros ->%Bool.eqb_prop.
  - by intros ->%Bool.eqb_prop.
  - intros [[->%Bool.eqb_prop ->%Pos.eqb_eq]%andb_prop ->%Z.eqb_eq]%andb_prop.
    done.
Qed.

(** A property checked on the 256 values holds of every uint8 value. *)
Lemma uint8_cases (P : Z -> bool) :
  forallb P (seqZ 0 256) = true -> forall v, is_uint8 v -> P v = true.
Proof.
  intros H v Hv. apply Is_true_true_2 in H. apply forallb_True in H.
  rewrite Forall_forall in H. apply Is_true_true_1, H, elem_of_seqZ.
  unfold is_uint8 in Hv. lia.
Qed.

Ltac by_uint8_cases P Hv :=
  apply (uint8_cases P); [vm_compute; reflexivity | exact Hv].

Lemma arr_map_ext_on {A B} (P : A -> Prop) (f g : A -> B) (a : list (list A)) :
  Forall (Forall P) a -> (forall x, P x -> f x = g x) -> arr_map f a = arr_map g a.
Proof.
  intros Ha Hfg. unfold arr_map. apply Forall_fmap_ext_1.
  eapply Forall_impl; [exact Ha|]. intros r Hr. simpl.
  apply Forall_fmap_ext_1. eapply Forall_impl; [exact Hr|]. done.
Qed.

Lemma arr_map_id {A} (a : list (list A)) : arr_map (fun x => x) a = a.
Proof.
  unfold arr_map. rewrite <- (list_fmap_id a) at 2. apply list_fmap_ext.
  intros _ r _. apply list_fmap_id.
Qed.

Lemma of_Z_uint8_finite l : is_uint8 l -> is_finite (of_Z l) = true.
Proof. intros Hl. by_uint8_cases (fun l => is_finite (of_Z l)) Hl. Qed.

(** ** A factor of 1 *)

(** [(1 - 1) * other] is a zero when [other] is finite. *)
Lemma zero_times_finite o :
  is_finite o = true -> exists s, mul (sub one (of_Z 1)) o = S754_zero s.
Proof.
  change (sub one (of_Z 1)) with (S754_zero false).
  destruct o as [s| | |s m e]; try done; intros _; by eexists.
Qed.

(** [1 * v + 0], clipped and cast, is [v]. *)
Lemma self_plus_zero v s :
  is_uint8 v ->
  astype_uint8 (clip (add (mul (of_Z 1) (of_Z v)) (S754_zero s))
                     (of_Z 0) (of_Z 255)) = v.
Proof.
  intros Hv. apply Z.eqb_eq. destruct s.
  - by_uint8_cases
      (fun v => astype_uint8 (clip (add (mul (of_Z 1) (of_Z v)) (S754_zero true))
                                   (of_Z 0) (of_Z 255)) =? v) Hv.
  - by_uint8_cases
      (fun v => astype_uint8 (clip (add (mul (of_Z 1) (of_Z v)) (S754_zero false))
                                   (of_Z 0) (of_Z 255)) =? v) Hv.
Qed.

Lemma blend_px_one o v :
  is_finite o = true -> is_uint8 v -> blend_px (of_Z 1) o v = v.
Proof.
  intros Ho Hv. unfold blend_px. destruct (zero_times_finite o Ho) as [s ->].
  by apply self_plus_zero.
Qed.

Lemma blend_spec_one (other : pixel Z -> pixel float) img :
  image_uint8 img ->
  (forall px, let '(a, b, c) := other px in
              is_finite a = true /\ is_finite b = true /\ is_finite c = true) ->
  blend_spec (of_Z 1) other img = img.
Proof.
  intros Himg Hother. unfold blend_spec. rewrite <- (arr_map_id img) at 2.
  apply (arr_map_ext_on pixel_uint8); [done|].
  intros [[r g] b] (Hr & Hg & Hb). specialize (Hother (r, g, b)).
  destruct (other (r, g, b)) as [[o1 o2] o3]. destruct Hother as (H1 & H2 & H3).
  simpl. by rewrite !blend_px_one.
Qed.

(** X5.  A factor of exactly 1 leaves a uint8 image as it is: always for
    brightness and saturation, and for contrast when the mean of the gray
    image is a finite double. *)
Theorem ratio_one_is_identity img :
  image_uint8 img ->
  adjust_brightness img (of_Z 1) = img
  /\ adjust_saturation img (of_Z 1) = img
  /\ (is_finite (np_mean (arr_map luma img)) = true ->
      adjust_contrast img (of_Z 1) = img).
Proof.
  intros Himg. split_and!.
  - unfold adjust_brightness. rewrite blend_scalar. apply blend_spec_one; [done|].
    intros _. by vm_compute.
  - rewrite adjust_saturation_spec. apply blend_spec_one; [done|].
    intros px. unfold other_saturation. cbv zeta.
    by rewrite of_Z_uint8_finite by apply astype_uint8_range.
  - intros Hm. unfold adjust_contrast. rewrite blend_scalar.
    by apply blend_spec_one.
Qed.

(** ** A factor of 0 *)

Lemma blend_px_brightness_zero v :
  is_uint8 v -> blend_px (of_Z 0) (of_Z 0) v = 0.
Proof.
  intros Hv. apply Z.eqb_eq.
  by_uint8_cases (fun v => blend_px (of_Z 0) (of_Z 0) v =? 0) Hv.
Qed.

(** [0 * v] is the zero double. *)
Lemma saturation_zero_self v :
  is_uint8 v -> mul (of_Z 0) (of_Z v) = S754_zero false.
Proof.
  intros Hv. apply float_same_eq.
  by_uint8_cases
    (fun v => float_same (mul (of_Z 0) (of_Z v)) (S754_zero false)) Hv.
Qed.

(** [0 + (1 - 0) * l], clipped and cast, is [l]. *)
Lemma saturation_zero_other l :
  is_uint8 l ->
  astype_uint8 (clip (add (S754_zero false) (mul (sub one (of_Z 0)) (of_Z l)))
                     (of_Z 0) (of_Z 255)) = l.
Proof.
  intros Hl. apply Z.eqb_eq.
  by_uint8_cases
    (fun l => astype_uint8
                (clip (add (S754_zero false) (mul (sub one (of_Z 0)) (of_Z l)))
                      (of_Z 0) (of_Z 255)) =? l) Hl.
Qed.

(** X6.  A factor of exactly 0: brightness gives the black image, and
    saturation gives the image that [RandomGrayscale] converts to. *)
Theorem ratio_zero_endpoints img :
  image_uint8 img ->
  adjust_brightness img (of_Z 0) = arr_map (fun _ => (0, 0, 0)) img
  /\ adjust_saturation img (of_Z 0) = to_grayscale img.
Proof.
  intros Himg. split.
  - unfold adjust_brightness. rewrite blend_scalar. unfold blend_spec.
    apply (arr_map_ext_on pixel_uint8); [done|].
    intros [[r g] b] (Hr & Hg & Hb). simpl.
    by rewrite !blend_px_brightness_zero.
  - rewrite adjust_saturation_spec, to_grayscale_spec.
    unfold blend_spec, grayscale_spec, other_saturation.
    apply (arr_map_ext_on pixel_uint8); [done|].
    intros [[r g] b] (Hr & Hg & Hb). cbv zeta. unfold pix_map2, blend_px.
    rewrite !saturation_zero_self by done.
    by rewrite saturation_zero_other by apply astype_uint8_range.
Qed.

(** ** Grayscale of a gray pixel *)

(** The three weights add up to 0.9999: the luma of [(l, l, l)] is cast to
    [l - 1]. *)
Lemma luma_gray l :
  is_uint8 l -> astype_uint8 (luma (l, l, l)) = Z.max (l - 1) 0.
Proof.
  intros Hl. apply Z.eqb_eq.
  by_uint8_cases (fun l => astype_uint8 (luma (l, l, l)) =? Z.max (l - 1) 0) Hl.
Qed.

(** X7.  The grayscale conversion is not idempotent: a second conversion
    lowers every gray value above 0 by one, and a gray pixel [(v, v, v)] is
    converted to [(v - 1, v - 1, v - 1)], white to 254. *)
Theorem grayscale_twice img :
  to_grayscale (to_grayscale img) = grayscale_twice_spec img
  /\ forall v, is_uint8 v ->
       to_grayscale [[(v, v, v)]]
       = [[(Z.max (v - 1) 0, Z.max (v - 1) 0, Z.max (v - 1) 0)]].
Proof.
  split.
  - rewrite !to_grayscale_spec. unfold grayscale_spec, grayscale_twice_spec.
    rewrite arr_map_compose. apply arr_map_ext. intros px. unfold compose.
    cbv zeta. by rewrite luma_gray by apply astype_uint8_range.
  - intros v Hv. rewrite to_grayscale_spec. unfold grayscale_spec, arr_map.
    cbn [fmap list_fmap]. cbv zeta. by rewrite luma_gray.
Qed.

(** ** The kernel of [ColorJitter] is its function *)

Section PureKernelFacts.

Context {rng : Type} {HNumpy : Numpy rng}.

Lemma store_same {T} (h : gmap nat (list T)) images b i x :
  h !! images = Some b -> b !! i = Some x -> <[images := <[i := x]> b]> h = h.
Proof. intros Hb Hi. by rewrite list_insert_id, insert_id. Qed.

Lemma jitter_branch_run cfg images i fn h (g : rng) b img :
  h !! images = Some b -> b !! i = Some img ->
  jitter_branch cfg images i fn (h, g)
  = Some (tt, (<[images := <[i := (apply_branch cfg fn img g).1]> b]> h,
               (apply_branch cfg fn img g).2)).
Proof.
  intros Hb Hi. unfold jitter_branch, apply_branch.
  repeat case_match; subst; simpl;
    try (unfold kret; by rewrite (store_same h images b i img)).
  all: try (unfold kbind at 1, draw;
            match goal with H : np_random_uniform _ _ _ = _ |- _ => rewrite H end;
            by rewrite (update_image_run _ _ _ _ _ _ _ Hb Hi)).
  all: unfold kbind, load_image, draw, store_image; rewrite Hb; simpl; rewrite Hi;
    simpl;
    match goal with H : np_random_uniform _ _ _ = _ |- _ => rewrite H end;
    rewrite Hb; simpl; apply lookup_lt_Some in Hi; by rewrite decide_True.
Qed.

(** The loop over [fn_idx], turn after turn. *)
Lemma fn_loop_run cfg images i (fn_idx : list nat) h (g : rng) b img n :
  h !! images = Some b -> b !! i = Some img -> (n <= length fn_idx)%nat ->
  for_each (seq 0 n)
    (fun fn_id =>
       match fn_idx !! fn_id with
       | Some fn => jitter_branch cfg images i fn
       | None => fun _ => None
       end) (h, g)
  = let st := foldl (fun st fn => apply_branch cfg fn st.1 st.2) (img, g)
                    (take n fn_idx) in
    Some (tt, (<[images := <[i := st.1]> b]> h, st.2)).
Proof.
  intros Hb Hi Hn. induction n as [|n IH]; cbv zeta.
  - simpl. unfold kret. by rewrite (store_same h images b i img).
  - destruct (lookup_lt_is_Some_2 fn_idx n) as [fn Hfn]; [lia|].
    rewrite seq_S, for_each_app. unfold kbind at 1. rewrite IH by lia. cbv zeta.
    rewrite (take_S_r _ _ _ Hfn), foldl_app. simpl.
    set (st := foldl _ (img, g) (take n fn_idx)).
    unfold kbind. rewrite Hfn.
    apply lookup_lt_Some in Hi as Hlt.
    rewrite (jitter_branch_run cfg images i fn _ _ (<[i := st.1]> b) st.1);
      [|apply lookup_insert_eq|by apply list_lookup_insert_eq].
    unfold kret. by rewrite insert_insert_eq, list_insert_insert_eq.
Qed.

Lemma image_turn_run cfg images i h (g : rng) b img :
  h !! images = Some b -> b !! i = Some img ->
  kbind (draw (np_random_permutation 4))
    (fun fn_idx =>
       for_each (seq 0 (length fn_idx))
         (fun fn_id =>
            match fn_idx !! fn_id with
            | Some fn => jitter_branch cfg images i fn
            | None => fun _ => None
            end)) (h, g)
  = Some (tt, (<[images := <[i := (jitter_image cfg img g).1]> b]> h,
               (jitter_image cfg img g).2)).
Proof.
  intros Hb Hi. unfold kbind, draw, jitter_image.
  destruct (np_random_permutation 4 g) as [fn_idx g1].
  rewrite (fn_loop_run cfg images i fn_idx h g1 b img) by done.
  cbv zeta. by rewrite firstn_all.
Qed.

(** The loop over the images, with the images [done] behind it and the
    images [rest] ahead. *)
Lemma batch_loop_run cfg images (rest done : batch) h (g : rng) :
  h !! images = Some (done ++ rest) ->
  for_each (seq (length done) (length rest))
    (fun i =>
       kbind (draw (np_random_permutation 4))
         (fun fn_idx =>
            for_each (seq 0 (length fn_idx))
              (fun fn_id =>
                 match fn_idx !! fn_id with
                 | Some fn => jitter_branch cfg images i fn
                 | None => fun _ => None
                 end))) (h, g)
  = Some (tt, (<[images := done ++ (jitter_batch cfg rest g).1]> h,
               (jitter_batch cfg rest g).2)).
Proof.
  revert done h g. induction rest as [|img rest IH]; intros done h g Hb.
  - simpl. unfold kret. by rewrite insert_id.
  - simpl. unfold kbind at 1.
    rewrite (image_turn_run cfg images (length done) h g _ img Hb)
      by apply list_lookup_middle, eq_refl.
    destruct (jitter_image cfg img g) as [img' g1]. simpl.
    destruct (jitter_batch cfg rest g1) as [rest' g2] eqn:Hrest.
    rewrite insert_app_r_alt, Nat.sub_diag by lia. simpl.
    specialize (IH (done ++ [img']) (<[images := done ++ img' :: rest]> h) g1).
    rewrite length_app, Nat.add_1_r in IH. rewrite IH.
    + rewrite Hrest. simpl. by rewrite insert_insert_eq, <- app_assoc.
    + by rewrite lookup_insert_eq, <- app_assoc.
Qed.

Lemma color_jitter_run cfg images h (g : rng) b :
  h !! images = Some b ->
  color_jitter cfg images (h, g)
  = Some (images, (<[images := (jitter_batch cfg b g).1]> h,
                   (jitter_batch cfg b g).2)).
Proof.
  intros Hb. unfold color_jitter. rewrite (kbind_shape0 _ _ _ _ _ Hb).
  unfold kbind at 1.
  pose proof (batch_loop_run cfg images b [] h g Hb) as E.
  cbn [length app] in E. by rewrite E.
Qed.

Lemma jitter_batch_length cfg (b : batch) (g : rng) :
  length (jitter_batch cfg b g).1 = length b.
Proof.
  revert g. induction b as [|img b IH]; intros g; simpl; [done|].
  destruct (jitter_image cfg img g) as [img' g1]. specialize (IH g1).
  destruct (jitter_batch cfg b g1) as [b' g2]. simpl in *. by rewrite IH.
Qed.

(** X1.  The kernel of [ColorJitter], with its loops run in order and its
    writes into the batch, computes [jitter_batch]: the images are taken in
    order, each one is sent through the branches named by its own
    permutation, in the order of the permutation, and the generator goes
    from one draw to the next.  The batch keeps its length, and the first
    image depends on the generator alone, not on the images after it. *)
Theorem color_jitter_functional cfg images h (g : rng) b :
  h !! images = Some b ->
  color_jitter cfg images (h, g)
  = Some (images, (<[images := (jitter_batch cfg b g).1]> h,
                   (jitter_batch cfg b g).2))
  /\ length (jitter_batch cfg b g).1 = length b
  /\ (forall img b', b = img :: b' ->
        (jitter_batch cfg b g).1 !! 0%nat = Some (jitter_image cfg img g).1).
Proof.
  intros Hb. split_and!.
  - by apply color_jitter_run.
  - apply jitter_batch_length.
  - intros img b' ->. simpl. destruct (jitter_image cfg img g) as [img' g1].
    by destruct (jitter_batch cfg b' g1).
Qed.

Lemma jitter_batch_disabled cfg (b : batch) (g : rng) :
  brightness cfg = None -> contrast cfg = None -> saturation cfg = None ->
  hue cfg = None -> (jitter_batch cfg b g).1 = b.
Proof.
  intros Hb Hc Hs Hh. revert g. induction b as [|img b IH]; intros g; [done|].
  simpl. unfold jitter_image.
  destruct (np_random_permutation 4 g) as [fn_idx g1].
  induction fn_idx as [|fn fn_idx IHf]; simpl.
  - specialize (IH g1). destruct (jitter_batch cfg b g1) as [b' g2].
    simpl in *. by rewrite IH.
  - assert (E : apply_branch cfg fn img g1 = (img, g1)).
    { unfold apply_branch. rewrite Hb, Hc, Hs, Hh. by repeat case_match. }
    by rewrite E.
Qed.

(** X2.  With the four jitters disabled, as after [ColorJitter()], the
    kernel leaves the whole store as it is: only the generator moves on. *)
Theorem color_jitter_disabled cfg images h (g : rng) b :
  h !! images = Some b ->
  brightness cfg = None -> contrast cfg = None -> saturation cfg = None ->
  hue cfg = None ->
  exists g', color_jitter cfg images (h, g) = Some (images, (h, g')).
Proof.
  intros Hb H1 H2 H3 H4. exists (jitter_batch cfg b g).2.
  rewrite (color_jitter_run cfg images h g b Hb).
  by rewrite jitter_batch_disabled, insert_id.
Qed.

(** X3.  On an empty batch neither kernel draws from the generator or
    writes to the store. *)
Theorem kernels_on_empty_batch cfg p images h (g : rng) :
  h !! images = Some [] ->
  color_jitter cfg images (h, g) = Some (images, (h, g))
  /\ rgb_to_grayscale p images (h, g) = Some (images, (h, g)).
Proof.
  intros Hb. split.
  - rewrite (color_jitter_run cfg images h g [] Hb). simpl.
    by rewrite insert_id.
  - by rewrite (rgb_to_grayscale_run p images h g [] [] g Hb), insert_id.
Qed.

Lemma grayscale_batch_none p (us : list float) (b : batch) :
  length us = length b -> Forall (fun u => ltb u p = false) us ->
  grayscale_batch p us b = b.
Proof.
  intros Hlen Hus. revert b Hlen. unfold grayscale_batch.
  induction Hus as [|u us Hu _ IH]; intros [|img b] Hlen; try done.
  simpl. rewrite Hu. f_equal. apply IH. simpl in Hlen. lia.
Qed.

Lemma grayscale_batch_all p (us : list float) (b : batch) :
  length us = length b -> Forall (fun u => ltb u p = true) us ->
  grayscale_batch p us b = to_grayscale <$> b.
Proof.
  intros Hlen Hus. revert b Hlen. unfold grayscale_batch.
  induction Hus as [|u us Hu _ IH]; intros [|img b] Hlen; try done.
  simpl. rewrite Hu, to_grayscale_spec. f_equal. apply IH. simpl in Hlen. lia.
Qed.

(** X4.  The draws of [np.random.rand] decide alone: if none is below [p]
    (as with [p = 0] and draws from [0, 1)) the store is left as it is, and
    if all are (as with [p = 1]) every image is converted. *)
Theorem rgb_to_grayscale_all_or_none p images h (g : rng) b us g' :
  h !! images = Some b -> np_random_rand (length b) g = (us, g') ->
  (Forall (fun u => ltb u p = false) us ->
   rgb_to_grayscale p images (h, g) = Some (images, (h, g')))
  /\ (Forall (fun u => ltb u p = true) us ->
      rgb_to_grayscale p images (h, g)
      = Some (images, (<[images := to_grayscale <$> b]> h, g'))).
Proof.
  intros Hb Hr.
  assert (Hlen : length us = length b).
  { pose proof (np_random_rand_length (length b) g) as Hl. by rewrite Hr in Hl. }
  rewrite (rgb_to_grayscale_run p images h g b us g' Hb Hr).
  split; intros Hus.
  - by rewrite grayscale_batch_none, insert_id.
  - by rewrite grayscale_batch_all.
Qed.

End PureKernelFacts.

(** ** The ranges that [_check_input] stores *)

Lemma not_below_zero lo : leb (of_Z 0) lo = true -> ltb lo (of_Z 0) = false.
Proof.
  change (of_Z 0) with (S754_zero false).
  by destruct lo as [s|[]| |[] m e].
Qed.

(** X9.  Whatever is passed for brightness, contrast or saturation, a range
    that is stored never starts below 0: a number has its low end clipped
    at 0, and a pair is refused unless its low end is at least 0. *)
Theorem unit_centred_lower_bound v lo hi :
  check_unit_centred v = Ok (Some (lo, hi)) -> ltb lo (of_Z 0) = false.
Proof.
  unfold check_unit_centred, _check_input. intros H.
  apply rbind_ok in H as ([v0 v1] & Hv & H).
  destruct (eqb v0 v1 && eqb v1 (of_Z 1)); [done|]. injection H as -> ->.
  destruct v as [x|[|a [|b [|? ?]]]|]; try done.
  - destruct (ltb x (of_Z 0)); [done|]. injection Hv as <- _.
    unfold py_max. destruct (ltb (sub (of_Z 1) x) (of_Z 0)) eqn:E; [|done].
    vm_compute. reflexivity.
  - simpl in Hv. destruct (leb (of_Z 0) a) eqn:Ea; simpl in Hv; [|done].
    destruct (leb a b && leb b inf); [|done]. injection Hv as <- _.
    by apply not_below_zero.
Qed.

(** ** Pipelines *)

Section PipelineFacts.

Context {rng : Type} {HNumpy : Numpy rng} {HFastCrop : FastCrop} {R : Type}.






End PipelineFacts.

(** ** The edges of [write] *)

Lemma trace_length {X} (envs : list string) (dss : list (EnvDataset X)) :
  length (concat (zip_with write_env envs dss))
  = (3 * (length envs `min` length dss))%nat.
Proof.
  revert dss. induction envs as [|e envs IH]; intros [|d dss]; simpl; try done.
  rewrite IH. lia.
Qed.

Lemma body_protocol {X} (envs : list string) (dss : list (EnvDataset X)) :
  let body := concat (zip_with write_env envs dss) in
  (forall w ds, body !! 0%nat <> Some (FromIndexedDataset w ds))
  /\ (forall k w ds,
        body !! S k = Some (FromIndexedDataset w ds) ->
        body !! k = Some (NewDatasetWriter w))
  /\ (forall k w,
        body !! k = Some (NewDatasetWriter w) ->
        exists ds, body !! S k = Some (FromIndexedDataset w ds)).
Proof.
  cbv zeta. revert dss.
  induction envs as [|e envs IH]; intros [|d dss]; simpl; try done.
  destruct (IH dss) as (IHa & IHb & IHc). split_and!.
  - done.
  - intros [|[|[|k]]] w ds H; simpl in *; try done.
    + by injection H as <- _.
    + by destruct (IHa w ds).
    + by apply IHb in H.
  - intros [|[|[|k]]] w H; simpl in *; try done.
    + injection H as <-. by eexists.
    + by apply IHc in H.
Qed.

Section WriterEdges.

Context {X : Type}.
Variable registry : gmap string (string -> MultipleDomainDataset X).

(** X11.  [zip] pairs environments and datasets by position and stops at
    the shorter list: [write] makes as many files as there are pairs, three
    effects for each after the banner, and an environment without a dataset
    at its position gets no file, without any error. *)
Theorem write_stops_at_shorter args ctor :
  registry !! Args.dataset args = Some ctor ->
  let d := ctor (Args.data_dir args) in
  exists tr,
    write registry args = Ok tr
    /\ length (writers_of tr)
       = (length (environments d) `min` length (datasets d))%nat
    /\ length (serialized_of tr) = length (writers_of tr)
    /\ length tr = (1 + 3 * length (writers_of tr))%nat
    /\ forall k, (length (datasets d) <= k)%nat -> writers_of tr !! k = None.
Proof.
  intros Hreg d. unfold write. rewrite Hreg. fold d.
  eexists. split; [reflexivity|].
  change (writers_of (Print ?s :: ?t)) with (writers_of t).
  change (serialized_of (Print ?s :: ?t)) with (serialized_of t).
  rewrite trace_writers, trace_serialized. simpl. rewrite trace_length.
  rewrite !length_zip_with. split_and!; try done.
  intros k Hk. apply lookup_ge_None_2. rewrite length_zip_with. lia.
Qed.

(** X12.  The order of the effects of [write]: the banner first, and then
    every call of [from_indexed_dataset] comes right after the construction
    of the writer it is called on, and every writer constructed is used by
    the very next effect. *)
Theorem write_protocol args tr :
  write registry args = Ok tr ->
  tr !! 0%nat = Some (Print ("Writting beton files for " +:+ Args.dataset args
                             +:+ " dataset"))
  /\ (forall k w ds,
        tr !! S k = Some (FromIndexedDataset w ds) ->
        tr !! k = Some (NewDatasetWriter w))
  /\ (forall k w,
        tr !! k = Some (NewDatasetWriter w) ->
        exists ds, tr !! S k = Some (FromIndexedDataset w ds)).
Proof.
  unfold write. destruct (registry !! Args.dataset args) as [ctor|]; [|done].
  intros [= <-].
  destruct (body_protocol (environments (ctor (Args.data_dir args)))
              (datasets (ctor (Args.data_dir args)))) as (Ha & Hb & Hc).
  split_and!.
  - done.
  - intros [|k] w ds H; simpl in *; [by destruct (Ha w ds) | by apply Hb in H].
  - intros [|k] w H; simpl in *; [done | by apply Hc in H].
Qed.

End WriterEdges.

(** ** Instances of the further facts *)

Lemma color_jitter_functional_witness :
  color_jitter (HNumpy := example_numpy) example_cfg 0%nat (example_store, 0%nat)
  = Some (0%nat,
          (<[0%nat := (jitter_batch (HNumpy := example_numpy) example_cfg
                         example_batch 0%nat).1]> example_store,
           (jitter_batch (HNumpy := example_numpy) example_cfg
              example_batch 0%nat).2))
  /\ length (jitter_batch (HNumpy := example_numpy) example_cfg
               example_batch 0%nat).1 = length example_batch
  /\ (forall img b', example_batch = img :: b' ->
        (jitter_batch (HNumpy := example_numpy) example_cfg
           example_batch 0%nat).1 !! 0%nat
        = Some (jitter_image (HNumpy := example_numpy) example_cfg img 0%nat).1).
Proof.
  apply (color_jitter_functional (HNumpy := example_numpy) example_cfg 0%nat
           example_store 0%nat example_batch).
  reflexivity.
Defined.

Lemma color_jitter_disabled_witness :
  exists g',
    color_jitter (HNumpy := example_numpy) example_disabled 0%nat
      (example_store, 0%nat)
    = Some (0%nat, (example_store, g')).
Proof.
  apply (color_jitter_disabled (HNumpy := example_numpy) example_disabled 0%nat
           example_store 0%nat example_batch); reflexivity.
Defined.

Lemma kernels_on_empty_batch_witness :
  color_jitter (HNumpy := example_numpy) example_cfg 0%nat
    (example_empty_store, 0%nat)
  = Some (0%nat, (example_empty_store, 0%nat))
  /\ rgb_to_grayscale (HNumpy := example_numpy) (lit 1 10) 0%nat
       (example_empty_store, 0%nat)
     = Some (0%nat, (example_empty_store, 0%nat)).
Proof.
  apply (kernels_on_empty_batch (HNumpy := example_numpy) example_cfg (lit 1 10)
           0%nat example_empty_store 0%nat).
  reflexivity.
Defined.

(** The draw 0.05: nothing happens with [p = 0], the image is converted
    with [p = 0.1]. *)
Lemma rgb_to_grayscale_all_or_none_witness :
  rgb_to_grayscale (HNumpy := example_numpy) (of_Z 0) 0%nat (example_store, 0%nat)
  = Some (0%nat, (example_store, 1%nat))
  /\ rgb_to_grayscale (HNumpy := example_numpy) (lit 1 10) 0%nat
       (example_store, 0%nat)
     = Some (0%nat,
             (<[0%nat := to_grayscale <$> example_batch]> example_store, 1%nat)).
Proof.
  split.
  - apply (rgb_to_grayscale_all_or_none (HNumpy := example_numpy) (of_Z 0) 0%nat
             example_store 0%nat example_batch [lit 1 20] 1%nat).
    + reflexivity.
    + reflexivity.
    + constructor; [vm_compute; reflexivity | constructor].
  - apply (rgb_to_grayscale_all_or_none (HNumpy := example_numpy) (lit 1 10) 0%nat
             example_store 0%nat example_batch [lit 1 20] 1%nat).
    + reflexivity.
    + reflexivity.
    + constructor; [vm_compute; reflexivity | constructor].
Defined.

Lemma ratio_one_is_identity_witness :
  adjust_brightness example_image (of_Z 1) = example_image
  /\ adjust_saturation example_image (of_Z 1) = example_image
  /\ adjust_contrast example_image (of_Z 1) = example_image.
Proof.
  destruct (ratio_one_is_identity example_image) as (Hb & Hs & Hc).
  - repeat constructor; unfold is_uint8; lia.
  - split_and!; [exact Hb | exact Hs | apply Hc; vm_compute; reflexivity].
Defined.

Lemma ratio_zero_endpoints_witness :
  adjust_brightness example_image (of_Z 0) = [[(0, 0, 0)]]
  /\ adjust_saturation example_image (of_Z 0) = to_grayscale example_image.
Proof.
  apply (ratio_zero_endpoints example_image).
  repeat constructor; unfold is_uint8; lia.
Defined.

(** White becomes 254. *)
Lemma grayscale_twice_witness :
  to_grayscale [[(255, 255, 255)]] = [[(254, 254, 254)]].
Proof.
  apply (proj2 (grayscale_twice example_image) 255).
  unfold is_uint8. lia.
Defined.

(** [brightness = 2]: the range is [(max(-1, 0), 3)]. *)
Lemma unit_centred_lower_bound_witness :
  check_unit_centred (PyNum (of_Z 2)) = Ok (Some (of_Z 0, of_Z 3))
  /\ ltb (of_Z 0) (of_Z 0) = false.
Proof.
  assert (H : check_unit_centred (PyNum (of_Z 2)) = Ok (Some (of_Z 0, of_Z 3)))
    by (vm_compute; reflexivity).
  split; [exact H|].
  apply (unit_centred_lower_bound (PyNum (of_Z 2)) (of_Z 0) (of_Z 3)).
  exact H.
Defined.


(** Two environments and one dataset: one file. *)
Lemma write_stops_at_shorter_witness :
  exists tr,
    write example_short_registry example_args = Ok tr
    /\ length (writers_of tr) = 1%nat
    /\ length (serialized_of tr) = length (writers_of tr)
    /\ length tr = (1 + 3 * length (writers_of tr))%nat
    /\ forall k, (1 <= k)%nat -> writers_of tr !! k = None.
Proof.
  apply (write_stops_at_shorter example_short_registry example_args
           example_short_dataset).
  vm_compute. reflexivity.
Defined.

Lemma write_protocol_witness :
  exists tr,
    write example_registry example_args = Ok tr
    /\ tr !! 0%nat = Some (Print "Writting beton files for PACS dataset")
    /\ (forall k w ds,
          tr !! S k = Some (FromIndexedDataset w ds) ->
          tr !! k = Some (NewDatasetWriter w))
    /\ (forall k w,
          tr !! k = Some (NewDatasetWriter w) ->
          exists ds, tr !! S k = Some (FromIndexedDataset w ds)).
Proof.
  eexists. split; [vm_compute; reflexivity|].
  apply (write_protocol example_registry example_args).
  vm_compute. reflexivity.
Defined.
